(** * Trend extraction workflow: the categorizer, the sentiment scorer,
      the aggregator and [process_trends] of [trend_extractor_main.py],
      and the store utilities and interactive menu of [db_utils.py].

    Python [str] values, the lines typed at the console included, are
    modelled as [string] (one [ascii] per character); integers as [Z];
    SQLite REAL and Python float values as exact rationals [Q], which is
    enough for the order, sum and bound properties stated below. *)

From Stdlib Require Import ZArith QArith Ascii String DecimalString Sorted Lia.
From stdpp Require Import gmap strings list.

Local Open Scope string_scope.
Local Open Scope list_scope.

(** ** Python string primitives *)

Module PyStr.

(** [str.lower] on one character: 'A'..'Z' move to 'a'..'z'. *)
Definition lower_char (c : ascii) : ascii :=
  let n := nat_of_ascii c in
  if (65 <=? n)%nat && (n <=? 90)%nat then ascii_of_nat (n + 32) else c.

Fixpoint lower (s : string) : string :=
  match s with
  | EmptyString => EmptyString
  | String c s' => String (lower_char c) (lower s')
  end.

(** [s.startswith(p)]. *)
Fixpoint startswith (p s : string) : bool :=
  match p, s with
  | EmptyString, _ => true
  | String _ _, EmptyString => false
  | String a p', String b s' => Ascii.eqb a b && startswith p' s'
  end.

(** [needle in hay] for strings. *)
Fixpoint str_in (needle hay : string) : bool :=
  startswith needle hay
  || match hay with
     | EmptyString => false
     | String _ hay' => str_in needle hay'
     end.

(** [str.strip]: ASCII white space is removed at both ends. *)
Definition is_space (c : ascii) : bool :=
  let n := nat_of_ascii c in
  ((9 <=? n)%nat && (n <=? 13)%nat) || ((28 <=? n)%nat && (n <=? 32)%nat).

Fixpoint lstrip (s : string) : string :=
  match s with
  | EmptyString => EmptyString
  | String c s' => if is_space c then lstrip s' else s
  end.

Fixpoint rstrip (s : string) : string :=
  match s with
  | EmptyString => EmptyString
  | String c s' =>
      match rstrip s' with
      | EmptyString => if is_space c then EmptyString else String c EmptyString
      | r => String c r
      end
  end.

Definition strip (s : string) : string := rstrip (lstrip s).

(** [c in '0123456789'] *)
Definition is_digit (c : ascii) : bool :=
  let n := nat_of_ascii c in (48 <=? n)%nat && (n <=? 57)%nat.

(** The longest prefix of digits, and what follows it. *)
Fixpoint take_digits (s : string) : string * string :=
  match s with
  | EmptyString => (EmptyString, EmptyString)
  | String c s' =>
      if is_digit c
      then let '(d, r) := take_digits s' in (String c d, r)
      else (EmptyString, s)
  end.

(** The value of a digit string in base ten. *)
Definition digit_value (c : ascii) : Z := Z.of_nat (nat_of_ascii c) - 48.

Fixpoint digits_value_from (acc : Z) (s : string) : Z :=
  match s with
  | EmptyString => acc
  | String c s' => digits_value_from (10 * acc + digit_value c) s'
  end.

Definition digits_value (s : string) : Z := digits_value_from 0 s.

(** [str.isdigit]: at least one character, and digits only. *)
Fixpoint all_digit_chars (s : string) : bool :=
  match s with
  | EmptyString => true
  | String c s' => is_digit c && all_digit_chars s'
  end.

Definition isdigit (s : string) : bool :=
  match s with
  | EmptyString => false
  | String _ _ => all_digit_chars s
  end.

(** The declarative reading of containment. *)
Definition substring_of (needle hay : string) : Prop :=
  ∃ pre post : string, hay = pre +:+ needle +:+ post.

(** Case-insensitive containment, as the categorizer tests it: both
    sides are lower-cased first. *)
Definition contains_ci (trigger keyword : string) : Prop :=
  substring_of (lower trigger) (lower keyword).

Lemma startswith_spec p s :
  startswith p s = true ↔ ∃ post, s = p +:+ post.
Proof.
  revert s. induction p as [|a p IH]; intros s; simpl.
  - split; [intros _; by exists s | done].
  - destruct s as [|b s]; simpl.
    + split; [done | intros [post H]; discriminate].
    + rewrite andb_true_iff, IH. split.
      * intros [Hab [post ->]]. apply Ascii.eqb_eq in Hab as ->. by exists post.
      * intros [post [= -> ->]]. split; [apply Ascii.eqb_refl | by exists post].
Qed.

Lemma str_in_spec needle hay :
  str_in needle hay = true ↔ substring_of needle hay.
Proof.
  unfold substring_of. induction hay as [|c hay IH]; simpl.
  - rewrite orb_false_r, startswith_spec. split.
    + intros [post H]. by exists "", post.
    + intros [[|a pre] [post H]]; simpl in H; [by exists post | discriminate].
  - rewrite orb_true_iff, startswith_spec, IH. split.
    + intros [[post H] | (pre & post & H)].
      * by exists "", post.
      * exists (String c pre), post. simpl. by rewrite H.
    + intros [[|a pre] [post H]]; simpl in H.
      * left. by exists post.
      * right. injection H as -> H. by exists pre, post.
Qed.

#[export] Instance substring_of_dec needle hay : Decision (substring_of needle hay).
Proof.
  refine (cast_if (decide (str_in needle hay = true))); by rewrite <- str_in_spec.
Defined.

#[export] Instance contains_ci_dec trigger keyword : Decision (contains_ci trigger keyword).
Proof. unfold contains_ci. apply _. Defined.

End PyStr.

(** ** Insertion-ordered dictionaries

    Python [dict] keeps keys in first-insertion order; assigning to an
    existing key keeps its position.  Order matters for [max] and for
    [dict.values()], so the dictionary is an association list. *)

Module PyDict.

Section Dict.
Context {V : Type}.

Fixpoint get (d : list (string * V)) (k : string) : option V :=
  match d with
  | [] => None
  | (k', v) :: d' => if String.eqb k k' then Some v else get d' k
  end.

Fixpoint set (k : string) (v : V) (d : list (string * V)) : list (string * V) :=
  match d with
  | [] => [(k, v)]
  | (k', v') :: d' =>
      if String.eqb k k' then (k, v) :: d' else (k', v') :: set k v d'
  end.

Definition keys (d : list (string * V)) : list string := fst <$> d.
Definition values (d : list (string * V)) : list V := snd <$> d.

Lemma set_fresh (k : string) (v : V) (d : list (string * V)) :
  k ∉ keys d → set k v d = d ++ [(k, v)].
Proof.
  induction d as [|[k' v'] d IH]; simpl; [done|].
  intros Hk. apply not_elem_of_cons in Hk as [Hne Hk].
  destruct (String.eqb_spec k k') as [->|_]; [done|]. by rewrite IH.
Qed.

Lemma get_lookup (d : list (string * V)) (k : string) (v : V) :
  NoDup (keys d) → (k, v) ∈ d → get d k = Some v.
Proof.
  induction d as [|[k' v'] d IH]; simpl; intros Hnd Hin.
  - by apply elem_of_nil in Hin.
  - apply NoDup_cons in Hnd as [Hk' Hnd].
    apply elem_of_cons in Hin as [[= <- <-]|Hin].
    + by rewrite String.eqb_refl.
    + destruct (String.eqb_spec k k') as [->|_]; [|by apply IH].
      exfalso. apply Hk'. unfold keys.
      change k' with (fst (k', v)). by apply list_elem_of_fmap_2.
Qed.

Lemma get_set (d : list (string * V)) (k k' : string) (v : V) :
  get (set k v d) k' = if String.eqb k' k then Some v else get d k'.
Proof.
  induction d as [|[k0 v0] d IH]; simpl.
  - done.
  - destruct (String.eqb_spec k k0) as [->|Hne]; simpl.
    + by destruct (String.eqb_spec k' k0).
    + rewrite IH. destruct (String.eqb_spec k' k0) as [->|_]; [|done].
      by destruct (String.eqb_spec k0 k).
Qed.

Lemma get_None (d : list (string * V)) (k : string) :
  get d k = None ↔ k ∉ keys d.
Proof.
  induction d as [|[k0 v0] d IH]; simpl.
  - split; [intros _; apply not_elem_of_nil | done].
  - rewrite not_elem_of_cons. destruct (String.eqb_spec k k0) as [->|Hne].
    + split; [done | by intros [? _]].
    + rewrite IH. split; [by intros ? | by intros [_ ?]].
Qed.

Lemma keys_set (d : list (string * V)) (k : string) (v : V) :
  keys (set k v d)
  = match get d k with
    | Some _ => keys d
    | None => keys d ++ [k]
    end.
Proof.
  induction d as [|[k0 v0] d IH]; simpl; [done|].
  destruct (String.eqb_spec k k0) as [->|Hne]; simpl; [done|].
  rewrite IH. by destruct (get d k).
Qed.

Lemma elem_of_get (d : list (string * V)) (k : string) (v : V) :
  get d k = Some v → (k, v) ∈ d.
Proof.
  induction d as [|[k0 v0] d IH]; simpl; [done|].
  destruct (String.eqb_spec k k0) as [->|Hne].
  - intros [= ->]. left.
  - intros H. right. by apply IH.
Qed.

End Dict.

End PyDict.

(** ** Exceptions

    A call either returns a value or raises; [try ... except Exception]
    is [try_except]. *)

Module Py.

Inductive exn : Type :=
  | KeyError | IndexError | ValueError | OverflowError | EOFError
  | AttributeError | ExternalError.

Inductive result (A : Type) : Type :=
  | Ok (a : A)
  | Raise (e : exn).
Arguments Ok {A} a.
Arguments Raise {A} e.

#[export] Instance result_bind : MBind result :=
  λ A B k r,
    match r with
    | Ok a => k a
    | Raise e => Raise e
    end.

Definition try_except {A} (body : result A) (handler : exn → result A)
    : result A :=
  match body with
  | Ok a => Ok a
  | Raise e => handler e
  end.

End Py.

(** ** Stable descending sort

    [list.sort(key=..., reverse=True)] and [ORDER BY ... DESC] are read
    as a stable insertion sort: an element is placed before the first
    element whose key is not greater than its own, so elements with
    equal keys keep their relative order. *)

Module DescSort.

Section Sort.
Context {A K : Type} (key : A → K) (leb : K → K → bool).

Fixpoint insert (x : A) (l : list A) : list A :=
  match l with
  | [] => [x]
  | y :: l' => if leb (key y) (key x) then x :: l else y :: insert x l'
  end.

Definition sort (l : list A) : list A := foldr insert [] l.

(** Descending: every element is followed by one whose key is not greater. *)
Definition desc (a b : A) : Prop := leb (key b) (key a) = true.

Lemma insert_perm x l : insert x l ≡ₚ x :: l.
Proof.
  induction l as [|y l IH]; simpl; [done|].
  destruct (leb (key y) (key x)); [done|].
  rewrite IH. apply Permutation_swap.
Qed.

Lemma sort_perm l : sort l ≡ₚ l.
Proof.
  induction l as [|x l IH]; simpl; [done|].
  rewrite insert_perm. by rewrite IH.
Qed.

Hypothesis leb_total : ∀ a b, leb a b = false → leb b a = true.

Lemma insert_sorted x l : Sorted desc l → Sorted desc (insert x l).
Proof.
  induction l as [|y l IH]; simpl; intros Hs.
  - by repeat constructor.
  - destruct (leb (key y) (key x)) eqn:Hyx.
    + constructor; [done|]. by constructor.
    + apply Sorted_inv in Hs as [Hs Hd]. constructor; [by apply IH|].
      destruct l as [|z l]; simpl.
      * constructor. by apply leb_total.
      * destruct (leb (key z) (key x)).
        -- constructor. by apply leb_total.
        -- constructor. by apply HdRel_inv in Hd.
Qed.

Lemma sort_sorted l : Sorted desc (sort l).
Proof.
  induction l as [|x l IH]; simpl; [constructor | by apply insert_sorted].
Qed.

End Sort.

Lemma Qle_bool_total a b : Qle_bool a b = false → Qle_bool b a = true.
Proof.
  intros Hab. apply Qle_bool_iff. apply Qlt_le_weak, Qnot_le_lt.
  intros Hle. apply Qle_bool_iff in Hle. congruence.
Qed.

Lemma Sorted_weaken {A} (R R' : A → A → Prop) (l : list A) :
  (∀ a b, R a b → R' a b) → Sorted R l → Sorted R' l.
Proof.
  intros Himp. induction 1 as [|x l Hs IH Hd]; constructor; [done|].
  destruct Hd; constructor. by apply Himp.
Qed.

End DescSort.

(** ** Configuration ([Config]) *)

Module Config.

Definition CATEGORIES : list (string * list string) :=
  [ ("Social Media Marketing",
      ["social media"; "instagram"; "tiktok"; "facebook"; "twitter";
       "linkedin"; "influencer"]);
    ("Content Marketing",
      ["content"; "blog"; "video"; "podcast"; "storytelling"; "copywriting"]);
    ("SEO & SEM",
      ["seo"; "sem"; "search engine"; "google"; "keywords"; "backlinks";
       "ranking"]);
    ("Email Marketing",
      ["email"; "newsletter"; "automation"; "drip campaign"]);
    ("Analytics & Data",
      ["analytics"; "data"; "metrics"; "KPI"; "ROI"; "tracking"; "insights"]);
    ("Emerging Tech",
      ["AI"; "chatbot"; "automation"; "machine learning"; "AR"; "VR";
       "metaverse"]) ].

End Config.

(** ** [TrendCategorizer] *)

Module TrendCategorizer.
Import PyStr.

(** [sum(1 for kw in keywords if kw.lower() in keyword_lower)] *)
Definition score (keyword_lower : string) (keywords : list string) : nat :=
  fold_left Nat.add
    ((λ _, 1%nat) <$>
       (filter (λ kw, str_in (lower kw) keyword_lower = true) keywords))
    0%nat.

(** The loop filling [category_scores]. *)
Definition category_scores (categories : list (string * list string))
    (keyword_lower : string) : list (string * nat) :=
  fold_left
    (λ d entry,
       let s := score keyword_lower (snd entry) in
       if (0 <? s)%nat then PyDict.set (fst entry) s d else d)
    categories [].

(** [max(iterable, key=f)]: the running best is replaced only by a
    strictly greater key, so the first maximal element is returned. *)
Fixpoint max_from (f : string → nat) (best : string) (rest : list string)
    : string :=
  match rest with
  | [] => best
  | k :: rest' =>
      if (f best <? f k)%nat then max_from f k rest' else max_from f best rest'
  end.

(** [category_scores.get], used as the key of [max]; every key handed to
    it is a key of the dictionary, so the [None] branch is never the one
    compared. *)
Definition score_of (d : list (string * nat)) (k : string) : nat :=
  default 0%nat (PyDict.get d k).

Definition categorize (categories : list (string * list string))
    (keyword : string) : string :=
  let keyword_lower := lower keyword in
  let d := category_scores categories keyword_lower in
  match PyDict.keys d with
  | [] => "General Marketing"
  | k :: ks => max_from (score_of d) k ks
  end.

(** The number of triggers of a list that occur case-insensitively in a
    keyword, stated over the declarative containment. *)
Definition match_count (keyword : string) (triggers : list string) : nat :=
  length (filter (λ t, contains_ci t keyword) triggers).

(** *** Auxiliary facts *)

Lemma score_length keyword_lower keywords :
  score keyword_lower keywords
  = length (filter (λ kw, str_in (lower kw) keyword_lower = true) keywords).
Proof.
  unfold score.
  generalize (filter (λ kw, str_in (lower kw) keyword_lower = true) keywords).
  intros l. cut (∀ n, fold_left Nat.add ((λ _, 1%nat) <$> l) n = (n + length l)%nat).
  { intros H. by rewrite H. }
  induction l as [|x l IH]; intros n; simpl; [lia|]. rewrite IH. lia.
Qed.

Lemma score_match_count keyword triggers :
  score (lower keyword) triggers = match_count keyword triggers.
Proof.
  rewrite score_length. unfold match_count. f_equal.
  induction triggers as [|t ts IH]; [done|].
  rewrite !filter_cons, IH.
  destruct (decide (str_in (lower t) (lower keyword) = true)) as [H|H];
    destruct (decide (contains_ci t keyword)) as [H'|H']; try done;
    unfold contains_ci in H'; rewrite <- str_in_spec in H'; done.
Qed.

Lemma category_scores_acc keyword_lower categories (acc : list (string * nat)) :
  NoDup (PyDict.keys acc ++ (fst <$> categories)) →
  fold_left
    (λ d entry,
       let s := score keyword_lower (snd entry) in
       if (0 <? s)%nat then PyDict.set (fst entry) s d else d)
    categories acc
  = acc ++ ((λ e, (e.1, score keyword_lower e.2)) <$>
              filter (λ e, 0 < score keyword_lower e.2)%nat categories).
Proof.
  revert acc. induction categories as [|[c trig] cats IH]; intros acc Hnd; simpl.
  - by rewrite app_nil_r.
  - rewrite filter_cons. simpl.
    assert (Hc : c ∉ PyDict.keys acc).
    { apply NoDup_app in Hnd as (_ & Hdisj & _). intros Hin.
      apply (Hdisj c Hin). simpl. left. }
    destruct (Nat.ltb_spec 0 (score keyword_lower trig)) as [Hpos|Hzero].
    + rewrite decide_True by done. rewrite IH.
      * rewrite PyDict.set_fresh by done. by rewrite <- app_assoc.
      * rewrite PyDict.set_fresh by done. unfold PyDict.keys in *.
        rewrite fmap_app. simpl. rewrite <- app_assoc. done.
    + rewrite decide_False by lia. apply IH.
      simpl in Hnd. apply NoDup_app in Hnd as (H1 & H2 & H3).
      apply NoDup_cons in H3 as [_ H3]. apply NoDup_app. split_and!; [done| |done].
      intros x Hx Hx'. apply (H2 x Hx). by right.
Qed.

Lemma category_scores_filter keyword_lower categories :
  NoDup (fst <$> categories) →
  category_scores categories keyword_lower
  = (λ e, (e.1, score keyword_lower e.2)) <$>
      filter (λ e, 0 < score keyword_lower e.2)%nat categories.
Proof.
  intros Hnd. unfold category_scores. by rewrite category_scores_acc.
Qed.

Lemma max_from_spec (f : string → nat) best rest :
  ∃ pre post,
    best :: rest = pre ++ max_from f best rest :: post
    ∧ Forall (λ x, f x < f (max_from f best rest))%nat pre
    ∧ Forall (λ x, f x ≤ f (max_from f best rest))%nat post.
Proof.
  revert best. induction rest as [|k rest IH]; intros best; simpl.
  - exists [], []. by split_and!.
  - destruct (Nat.ltb_spec (f best) (f k)) as [Hlt|Hge].
    + destruct (IH k) as (pre & post & Heq & Hpre & Hpost).
      exists (best :: pre), post. split_and!; [by rewrite Heq | | done].
      constructor; [|done].
      assert (f k ≤ f (max_from f k rest))%nat; [|lia].
      destruct pre as [|p pre]; simpl in Heq.
      * injection Heq as <- _. lia.
      * injection Heq as <- _. apply Forall_cons in Hpre as [? _]. lia.
    + destruct (IH best) as (pre & post & Heq & Hpre & Hpost).
      remember (max_from f best rest) as r eqn:Hr. clear Hr IH.
      destruct pre as [|p pre]; simpl in Heq.
      * injection Heq as <- Hrest. exists [], (k :: rest). simpl.
        split_and!; [done | done |]. rewrite Hrest. by constructor.
      * injection Heq as <- Hrest. exists (best :: k :: pre), post.
        split_and!; [by rewrite Hrest| |done].
        apply Forall_cons in Hpre as [Hb Hpre].
        constructor; [done|]. constructor; [lia|done].
Qed.

Lemma filter_split {A} (P : A → Prop) `{∀ x, Decision (P x)} (l pre' post' : list A) x :
  filter P l = pre' ++ x :: post' →
  ∃ pre post, l = pre ++ x :: post ∧ filter P pre = pre' ∧ filter P post = post'
              ∧ P x.
Proof.
  revert pre'. induction l as [|a l IH]; intros pre' Heq.
  - by destruct pre'.
  - rewrite filter_cons in Heq. destruct (decide (P a)) as [Ha|Ha].
    + destruct pre' as [|p pre']; simpl in Heq.
      * injection Heq as -> Heq. exists [], l. by split_and!.
      * injection Heq as -> Heq. destruct (IH _ Heq) as (pre & post & -> & H1 & H2 & H3).
        exists (p :: pre), post. split_and!; try done.
        rewrite filter_cons, decide_True by done. by rewrite H1.
    + destruct (IH _ Heq) as (pre & post & -> & H1 & H2 & H3).
      exists (a :: pre), post. split_and!; try done.
      by rewrite filter_cons, decide_False.
Qed.

Lemma keys_scored (h : string * list string → nat) (l : list (string * list string)) :
  PyDict.keys ((λ e, (e.1, h e)) <$> l) = fst <$> l.
Proof.
  unfold PyDict.keys. induction l as [|e l IH]; simpl; [done|]. by f_equal.
Qed.

Lemma score_of_entry keyword_lower categories (e : string * list string) :
  NoDup (fst <$> categories) →
  e ∈ filter (λ e, 0 < score keyword_lower e.2)%nat categories →
  score_of (category_scores categories keyword_lower) e.1
  = score keyword_lower e.2.
Proof.
  intros Hnd He. unfold score_of. rewrite category_scores_filter by done.
  erewrite PyDict.get_lookup; [done | |].
  - rewrite (keys_scored (λ e, score keyword_lower e.2)).
    eapply sublist_NoDup; [exact Hnd|].
    apply fmap_sublist. apply sublist_filter.
  - apply (list_elem_of_fmap_2 (λ e, (e.1, score keyword_lower e.2)) _ e He).
Qed.

(** *** The category with no trigger in the keyword *)

Lemma categorize_no_match categories keyword :
  (∀ e, e ∈ categories → match_count keyword e.2 = 0%nat) →
  categorize categories keyword = "General Marketing".
Proof.
  intros Hnone. unfold categorize, category_scores.
  cut (∀ acc,
    fold_left
      (λ d entry,
         let s := score (lower keyword) (snd entry) in
         if (0 <? s)%nat then PyDict.set (fst entry) s d else d)
      categories acc = acc).
  { intros ->. done. }
  induction categories as [|e cats IH]; intros acc; simpl; [done|].
  rewrite score_match_count, (Hnone e) by left. simpl.
  apply IH. intros e' He'. apply Hnone. by right.
Qed.

Lemma match_count_zero keyword triggers :
  (∀ t, t ∈ triggers → ¬ contains_ci t keyword) →
  match_count keyword triggers = 0%nat.
Proof.
  unfold match_count. induction triggers as [|t ts IH]; intros Hno; [done|].
  rewrite filter_cons, decide_False by (apply Hno; left).
  apply IH. intros t' Ht'. apply Hno. by right.
Qed.

(** With one trigger matched in each of two categories the first one
    declared wins; with more triggers matched in a later category, that
    one wins ("email marketing" holds "email", but also "ai" and "ar"). *)
Example categorize_tie : categorize Config.CATEGORIES "SEO blog" = "Content Marketing".
Proof. reflexivity. Qed.

Example categorize_more_matches :
  categorize Config.CATEGORIES "Email Marketing" = "Emerging Tech".
Proof. reflexivity. Qed.

(** C1: with the category map read in declaration order, [categorize]
    returns the label of the first category whose trigger list has the
    greatest number of triggers contained case-insensitively in the
    keyword: the categories declared before it match strictly fewer
    triggers, the ones declared after it match no more, and it matches
    at least one.  The labels are the keys of a dictionary, hence
    pairwise distinct. *)
Theorem categorize_first_greatest categories keyword :
  NoDup (fst <$> categories) →
  (∃ e, e ∈ categories ∧ (0 < match_count keyword e.2)%nat) →
  ∃ before label triggers after,
    categories = before ++ (label, triggers) :: after
    ∧ categorize categories keyword = label
    ∧ (0 < match_count keyword triggers)%nat
    ∧ Forall (λ e, match_count keyword e.2 < match_count keyword triggers)%nat
        before
    ∧ Forall (λ e, match_count keyword e.2 ≤ match_count keyword triggers)%nat
        after.
Proof.
  intros Hnd (e & Hin & Hpos).
  set (kl := lower keyword).
  set (P := λ e : string * list string, (0 < score kl e.2)%nat).
  assert (Hscore : ∀ x, x ∈ filter P categories →
            score_of (category_scores categories kl) x.1 = match_count keyword x.2).
  { intros x Hx. unfold kl. rewrite score_of_entry by done.
    apply score_match_count. }
  assert (He : e ∈ filter P categories).
  { apply list_elem_of_filter. split; [|done].
    unfold P, kl. by rewrite score_match_count. }
  unfold categorize. fold kl.
  assert (Hkeys : PyDict.keys (category_scores categories kl)
                  = fst <$> filter P categories).
  { rewrite category_scores_filter by done.
    apply (keys_scored (λ e, score kl e.2)). }
  rewrite Hkeys.
  destruct (filter P categories) as [|e0 es] eqn:Hes.
  { by apply elem_of_nil in He. }
  rewrite fmap_cons.
  destruct (max_from_spec (score_of (category_scores categories kl))
              e0.1 (fst <$> es)) as (pre & post & Heq & Hpre & Hpost).
  remember (max_from (score_of (category_scores categories kl)) e0.1 (fst <$> es))
    as r eqn:Hr. clear Hr.
  change (e0.1 :: (fst <$> es)) with (fst <$> (e0 :: es)) in Heq.
  apply fmap_app_inv in Heq as (pe & rest & -> & Hrest & Hsplit).
  symmetry in Hrest. apply fmap_cons_inv in Hrest as (x & qe & -> & -> & ->).
  rewrite Hsplit in Hes.
  apply filter_split in Hes as (before & after & -> & Hpe & Hqe & Hx).
  assert (Hxin : x ∈ pe ++ x :: qe) by (apply elem_of_app; right; left).
  rewrite Hsplit in Hscore.
  pose proof (Hscore x Hxin) as Hsx.
  exists before, x.1, x.2, after. split_and!.
  - by destruct x.
  - done.
  - unfold P, kl in Hx. by rewrite score_match_count in Hx.
  - apply Forall_forall. intros y Hy.
    destruct (decide (P y)) as [Py|Py].
    + assert (Hype : y ∈ pe).
      { rewrite <- Hpe. apply list_elem_of_filter. by split. }
      rewrite Forall_forall in Hpre.
      specialize (Hpre y.1 (list_elem_of_fmap_2 fst _ _ Hype)).
      rewrite Hsx in Hpre. rewrite Hscore in Hpre; [done|].
      apply elem_of_app. by left.
    + unfold P, kl in Py, Hx. rewrite score_match_count in Py, Hx. lia.
  - apply Forall_forall. intros y Hy.
    destruct (decide (P y)) as [Py|Py].
    + assert (Hyqe : y ∈ qe).
      { rewrite <- Hqe. apply list_elem_of_filter. by split. }
      rewrite Forall_forall in Hpost.
      specialize (Hpost y.1 (list_elem_of_fmap_2 fst _ _ Hyqe)).
      rewrite Hsx in Hpost. rewrite Hscore in Hpost; [done|].
      apply elem_of_app. right. by right.
    + unfold P, kl in Py, Hx. rewrite score_match_count in Py, Hx. lia.
Qed.

Lemma categorize_first_greatest_witness :
  ∃ before label triggers after,
    Config.CATEGORIES = before ++ (label, triggers) :: after
    ∧ categorize Config.CATEGORIES "SEO blog" = label
    ∧ (0 < match_count "SEO blog" triggers)%nat
    ∧ Forall (λ e, match_count "SEO blog" e.2 < match_count "SEO blog" triggers)%nat
        before
    ∧ Forall (λ e, match_count "SEO blog" e.2 ≤ match_count "SEO blog" triggers)%nat
        after.
Proof.
  apply (categorize_first_greatest Config.CATEGORIES "SEO blog").
  - apply (bool_decide_unpack _). vm_compute. exact I.
  - exists ("SEO & SEM",
            ["seo"; "sem"; "search engine"; "google"; "keywords"; "backlinks";
             "ranking"]).
    split; [|vm_compute; lia].
    apply (bool_decide_unpack _). vm_compute. exact I.
Defined.

(** C6 (as the code has it): a keyword in which no trigger of any
    category occurs case-insensitively is given the default label, which
    is the string "General Marketing". *)
Theorem categorize_default categories keyword :
  (∀ e t, e ∈ categories → t ∈ e.2 → ¬ contains_ci t keyword) →
  categorize categories keyword = "General Marketing".
Proof.
  intros Hno. apply categorize_no_match. intros e He.
  apply match_count_zero. intros t Ht. by apply (Hno e t).
Qed.

Lemma no_trigger_in_weather :
  ∀ e t, e ∈ Config.CATEGORIES → t ∈ e.2 → ¬ contains_ci t "weather".
Proof.
  assert (H : Forall (λ e : string * list string,
                        Forall (λ t, ¬ contains_ci t "weather") e.2)
                Config.CATEGORIES).
  { apply (bool_decide_unpack _). vm_compute. exact I. }
  intros e t He Ht. rewrite Forall_forall in H.
  specialize (H e He). rewrite Forall_forall in H. by apply H.
Defined.

Lemma categorize_default_witness :
  categorize Config.CATEGORIES "weather" = "General Marketing".
Proof.
  apply (categorize_default Config.CATEGORIES "weather").
  exact no_trigger_in_weather.
Defined.

(** C6 as worded fails: for a keyword without any trigger the label
    returned is not "uncategorized". *)
Lemma categorize_default_not_uncategorized :
  ¬ (∀ keyword,
       (∀ e t, e ∈ Config.CATEGORIES → t ∈ e.2 → ¬ contains_ci t keyword) →
       categorize Config.CATEGORIES keyword = "uncategorized").
Proof.
  intros H. specialize (H "weather" no_trigger_in_weather).
  vm_compute in H. discriminate H.
Qed.

End TrendCategorizer.

(** ** [SentimentAnalyzer] *)

Module SentimentAnalyzer.
Import PyStr Py.

(** The object returned by the text-generation service; reading its
    [text] attribute may itself raise. *)
Record response : Type := { text : result string }.

(** The leftmost match of the pattern [-?\d+\.?\d*] starting exactly at
    the head of [s]: an optional minus sign that is kept only when a
    digit follows it, at least one digit, an optional point, and the
    digits after it. *)
Definition match_number (s : string) : option string :=
  let '(sign, body) :=
    match s with
    | String c s' => if Ascii.eqb c "-" then ("-", s') else ("", s)
    | EmptyString => ("", s)
    end in
  let '(int_part, rest) := take_digits body in
  match int_part with
  | EmptyString => None
  | _ =>
      let '(point, rest') :=
        match rest with
        | String c r => if Ascii.eqb c "." then (".", r) else ("", rest)
        | EmptyString => ("", rest)
        end in
      let '(frac_part, _) := take_digits rest' in
      Some (sign +:+ int_part +:+ point +:+ frac_part)
  end.

(** [re.findall(pattern, s)[0]]: the first match scanning from the left;
    an empty result list makes the subscript raise [IndexError]. *)
Fixpoint first_number (s : string) : result string :=
  match match_number s with
  | Some token => Ok token
  | None =>
      match s with
      | EmptyString => Raise IndexError
      | String _ s' => first_number s'
      end
  end.

(** [float(token)] on decimal literals: optional sign, digits, optional
    point and digits, read as the exact rational they denote.  Rounding
    to a double is monotone and fixes -1, 0 and 1, so it does not move a
    value across the bounds compared below. *)
Definition float (token : string) : result Q :=
  let '(negative, body) :=
    match token with
    | String c s' => if Ascii.eqb c "-" then (true, s') else (false, token)
    | EmptyString => (false, token)
    end in
  let '(int_part, rest) := take_digits body in
  match int_part with
  | EmptyString => Raise ValueError
  | _ =>
      let frac :=
        match rest with
        | EmptyString => Ok EmptyString
        | String c r =>
            if Ascii.eqb c "."
            then match take_digits r with
                 | (f, EmptyString) => Ok f
                 | _ => Raise ValueError
                 end
            else Raise ValueError
        end in
      frac_part ← frac;
      let scale := (10 ^ Z.of_nat (String.length frac_part))%Z in
      let magnitude :=
        (digits_value int_part * scale + digits_value frac_part)%Z in
      Ok (Qmake (if negative then - magnitude else magnitude) (Z.to_pos scale))
  end.

(** Python's two-argument [min] and [max] keep the first argument unless
    the second is strictly smaller (resp. greater). *)
Definition py_min (a b : Q) : Q := if Qlt_le_dec b a then b else a.
Definition py_max (a b : Q) : Q := if Qlt_le_dec a b then b else a.

Definition PROMPT : string :=
  "Analyze the sentiment of the following text and provide a sentiment score between -1 (very negative) and 1 (very positive).
Return ONLY a number between -1 and 1, nothing else.

Text: ".

Section Analyzer.

(** [self.model.generate_content]: the hosted model, which may raise. *)
Variable generate_content : string → result response.

Definition analyze_sentiment_body (text_in : string) : result Q :=
  let prompt := PROMPT +:+ String.substring 0 500 text_in in
  resp ← generate_content prompt;
  raw ← text resp;
  let score_text := strip raw in
  token ← first_number score_text;
  score ← float token;
  Ok (py_max (-1) (py_min 1 score)).

Definition analyze_sentiment (text_in : string) : result Q :=
  try_except (analyze_sentiment_body text_in) (λ _, Ok 0%Q).

(** The failure cases: the call raises, the response has no readable
    text, or the text holds no digit at all (so no numeric token). *)
Fixpoint has_digit (s : string) : bool :=
  match s with
  | EmptyString => false
  | String c s' => is_digit c || has_digit s'
  end.

Inductive failure (text_in : string) : Prop :=
  | call_raises e :
      generate_content (PROMPT +:+ String.substring 0 500 text_in) = Raise e →
      failure text_in
  | malformed_response resp e :
      generate_content (PROMPT +:+ String.substring 0 500 text_in) = Ok resp →
      text resp = Raise e →
      failure text_in
  | no_numeric_token resp raw :
      generate_content (PROMPT +:+ String.substring 0 500 text_in) = Ok resp →
      text resp = Ok raw →
      has_digit raw = false →
      failure text_in.

End Analyzer.

(** *** Auxiliary facts *)

Lemma clamp_bounds (q : Q) :
  (-1 <= py_max (-1) (py_min 1 q) <= 1)%Q.
Proof.
  unfold py_max, py_min.
  destruct (Qlt_le_dec q 1) as [Hq|Hq];
    destruct (Qlt_le_dec (-1) _) as [Hm|Hm]; split;
    first [ by apply Qlt_le_weak | apply Qle_refl | done ].
Qed.

Lemma has_digit_lstrip s : has_digit s = false → has_digit (lstrip s) = false.
Proof.
  induction s as [|c s IH]; simpl; [done|].
  intros H. apply orb_false_iff in H as [Hc Hs].
  destruct (is_space c); [by apply IH|]. simpl. by rewrite Hc, Hs.
Qed.

Lemma has_digit_rstrip s : has_digit s = false → has_digit (rstrip s) = false.
Proof.
  induction s as [|c s IH]; simpl; [done|].
  intros H. apply orb_false_iff in H as [Hc Hs]. specialize (IH Hs).
  destruct (rstrip s) as [|c' r].
  - destruct (is_space c); simpl; [done|]. by rewrite Hc.
  - simpl in *. by rewrite Hc, IH.
Qed.

Lemma has_digit_strip s : has_digit s = false → has_digit (strip s) = false.
Proof. intros H. unfold strip. by apply has_digit_rstrip, has_digit_lstrip. Qed.

Lemma take_digits_no_digit s :
  has_digit s = false → (take_digits s).1 = EmptyString.
Proof.
  destruct s as [|c s]; simpl; [done|].
  intros H. apply orb_false_iff in H as [-> _]. done.
Qed.

Lemma match_number_no_digit s : has_digit s = false → match_number s = None.
Proof.
  intros H. unfold match_number.
  destruct s as [|c s]; simpl; [done|].
  simpl in H. apply orb_false_iff in H as [Hc Hs].
  destruct (Ascii.eqb c "-").
  - pose proof (take_digits_no_digit s Hs) as Ht.
    destruct (take_digits s) as [d r]. simpl in Ht. by subst d.
  - simpl. by rewrite Hc.
Qed.

Lemma first_number_no_digit s :
  has_digit s = false → first_number s = Raise IndexError.
Proof.
  induction s as [|c s IH]; intros H.
  - done.
  - cbn [first_number]. rewrite match_number_no_digit by done.
    simpl in H. apply orb_false_iff in H as [_ Hs]. by apply IH.
Qed.


Example analyze_sentiment_clamps :
  analyze_sentiment (λ _, Ok {| text := Ok "Score: -3" |}) "bad" = Ok (-1)%Q
  ∧ analyze_sentiment (λ _, Ok {| text := Ok " 0.75 " |}) "good" = Ok 0.75%Q
  ∧ analyze_sentiment (λ _, Ok {| text := Ok "neutral" |}) "so-so" = Ok 0%Q
  ∧ analyze_sentiment (λ _, Raise ExternalError) "anything" = Ok 0%Q.
Proof. by split_and!. Qed.

(** C2: [analyze_sentiment] always returns (it never raises), the score
    it returns lies in [-1, 1], and in each failure case (the external
    call raises, the response text cannot be read, the text has no
    numeric token) the score is exactly 0. *)
Theorem analyze_sentiment_bounded (generate_content : string → result response)
    (text_in : string) :
  ∃ score : Q,
    analyze_sentiment generate_content text_in = Ok score
    ∧ (-1 <= score <= 1)%Q
    ∧ (failure generate_content text_in → score = 0%Q).
Proof.
  unfold analyze_sentiment, analyze_sentiment_body.
  set (prompt := PROMPT +:+ String.substring 0 500 text_in).
  assert (Hzero : (-1 <= 0 <= 1)%Q) by (split; discriminate).
  destruct (generate_content prompt) as [resp|e] eqn:Hcall; simpl.
  2:{ exists 0%Q. split_and!; done. }
  destruct (text resp) as [raw|e] eqn:Htext; simpl.
  2:{ exists 0%Q. split_and!; done. }
  destruct (first_number (strip raw)) as [token|e] eqn:Htok; simpl.
  2:{ exists 0%Q. split_and!; done. }
  assert (Hdigit : has_digit raw = false → False).
  { intros Hnd. apply has_digit_strip, first_number_no_digit in Hnd. congruence. }
  assert (Hfail : failure generate_content text_in → False).
  { intros [e Hc | r e Hc Ht | r raw' Hc Ht Hnd]; fold prompt in Hc.
    - congruence.
    - congruence.
    - apply Hdigit. congruence. }

  destruct (float token) as [score|e]; simpl.
  - exists (py_max (-1) (py_min 1 score)).
    split; [done | split; [apply clamp_bounds | done]].
  - exists 0%Q. split_and!; done.
Qed.

End SentimentAnalyzer.

(** ** The store: the [trends] table, the clock and the console *)

Module Store.
Import Py.

(** A point in time: the proleptic day number of its calendar date
    ([date.toordinal()]) and the microseconds elapsed within that day.
    The store keeps timestamps as ISO texts; [DATE(timestamp)] and
    [strftime('%Y-%m-%d')] both give the ten-character date, and such
    texts are ordered like the day numbers they denote. *)
Record datetime : Type := { ordinal : Z; micros : Z }.

Definition DATE (t : datetime) : Z := ordinal t.

(** Chronological order on points in time. *)
Definition earlier (a b : datetime) : Prop :=
  (ordinal a < ordinal b ∨ (ordinal a = ordinal b ∧ micros a < micros b))%Z.

Definition datetime_leb (a b : datetime) : bool :=
  (ordinal a <? ordinal b)%Z
  || ((ordinal a =? ordinal b)%Z && (micros a <=? micros b)%Z).

(** One row of the [trends] table (the columns the utilities select). *)
Record trend : Type := {
  keyword : string;
  platform : string;
  category : string;
  volume : Z;
  sentiment_score : Q;
  engagement_score : Q;
  timestamp : datetime
}.

(** [t - timedelta(days=days)]: [timedelta] accepts at most 999999999
    days in magnitude, and the difference must stay within the years 1
    to 9999; otherwise [OverflowError] is raised.  The time of day is
    unchanged. *)
Definition minus_days (t : datetime) (days : Z) : result datetime :=
  if (Z.abs days <=? 999999999)%Z
  then let d := (ordinal t - days)%Z in
       if (1 <=? d)%Z && (d <=? 3652059)%Z
       then Ok {| ordinal := d; micros := micros t |}
       else Raise OverflowError
  else Raise OverflowError.

(** [(datetime.now() - timedelta(days=days)).strftime('%Y-%m-%d')] *)
Definition date_threshold (now : datetime) (days : Z) : result Z :=
  cutoff ← minus_days now days;
  Ok (DATE cutoff).

(** What the utilities act on: the table, the clock read by
    [datetime.now()], the lines the user is going to type, the prompts
    shown so far by [input], and the files written.  [print] only adds
    text to the console and is left out. *)
Record world : Type := {
  trends : list trend;
  clock : datetime;
  keyboard : list string;
  prompts : list string;
  files : gmap string string
}.

(** A command may change the world and either return or raise. *)
Definition M (A : Type) : Type := world → result A * world.

#[export] Instance M_ret : MRet M := λ A a w, (Ok a, w).

#[export] Instance M_bind : MBind M :=
  λ A B k m w,
    match m w with
    | (Ok a, w') => k a w'
    | (Raise e, w') => (Raise e, w')
    end.

Definition lift {A} (r : result A) : M A := λ w, (r, w).

Definition now : M datetime := λ w, (Ok (clock w), w).

Definition select_trends : M (list trend) := λ w, (Ok (trends w), w).

(** [DELETE FROM trends WHERE cond] followed by [commit]. *)
Definition delete_where (cond : trend → bool) : M unit :=
  λ w, (Ok (),
        {| trends := List.filter (λ r, negb (cond r)) (trends w);
           clock := clock w; keyboard := keyboard w; prompts := prompts w;
           files := files w |}).

(** [input(prompt)]: the prompt is shown and the next typed line is
    returned; at end of input [EOFError] is raised. *)
Definition input (prompt : string) : M string :=
  λ w,
    let shown := prompts w ++ [prompt] in
    match keyboard w with
    | [] =>
        (Raise EOFError,
         {| trends := trends w; clock := clock w; keyboard := [];
            prompts := shown; files := files w |})
    | line :: rest =>
        (Ok line,
         {| trends := trends w; clock := clock w; keyboard := rest;
            prompts := shown; files := files w |})
    end.

(** [open(name, 'w')] followed by the writes: the file holds exactly the
    text written. *)
Definition write_file (name content : string) : M unit :=
  λ w, (Ok (),
        {| trends := trends w; clock := clock w; keyboard := keyboard w;
           prompts := prompts w; files := <[name := content]> (files w) |}).

(** [LIMIT n]: a negative bound means no bound. *)
Definition sql_limit {A} (n : Z) (rows : list A) : list A :=
  if (n <? 0)%Z then rows else take (Z.to_nat n) rows.

End Store.

(** ** [DatabaseUtils] *)

Module DatabaseUtils.
Import PyStr Py Store.

(** The [SELECT ... WHERE DATE(timestamp) >= ? ORDER BY
    (volume + engagement_score) DESC LIMIT ?] of [view_recent_trends]. *)
Definition combined (r : trend) : Q := inject_Z (volume r) + engagement_score r.

Definition view_recent_rows (threshold limit : Z) (table : list trend)
    : list trend :=
  sql_limit limit
    (DescSort.sort combined Qle_bool
       (List.filter (λ r, (threshold <=? DATE (timestamp r))%Z) table)).

(** [view_recent_trends] returns nothing; the rows it fetched and then
    prints are given here as its result. *)
Definition view_recent_trends (days limit : Z) : M (list trend) :=
  t ← now;
  date_threshold ← lift (date_threshold t days);
  table ← select_trends;
  mret (view_recent_rows date_threshold limit table).

(** The [SELECT ... WHERE DATE(timestamp) >= ? ORDER BY timestamp DESC]
    of [export_to_csv]. *)
Definition export_rows (threshold : Z) (table : list trend) : list trend :=
  DescSort.sort timestamp datetime_leb
    (List.filter (λ r, (threshold <=? DATE (timestamp r))%Z) table).

(** [str.replace(',', ';')] *)
Fixpoint replace_commas (s : string) : string :=
  match s with
  | EmptyString => EmptyString
  | String c s' =>
      String (if Ascii.eqb c "," then ";"%char else c) (replace_commas s')
  end.

(** [str(n)] for an integer. *)
Definition str_int (n : Z) : string := NilZero.string_of_int (Z.to_int n).

Definition NL : string := String (ascii_of_nat 10) EmptyString.
Definition QUOTE : string := String (ascii_of_nat 34) EmptyString.

Definition CSV_HEADER : string :=
  "Keyword,Platform,Category,Volume,Sentiment Score,Engagement Score,Timestamp"
  +:+ NL.

Section Exporting.

(** How the interpreter prints a float, and the text under which the
    store holds a timestamp; neither is fixed by this program. *)
Variable str_float : Q → string.
Variable str_timestamp : datetime → string.

Definition csv_line (row : trend) : string :=
  let keyword := replace_commas (keyword row) in
  QUOTE +:+ keyword +:+ QUOTE +:+ "," +:+ platform row +:+ ","
  +:+ category row +:+ "," +:+ str_int (volume row) +:+ ","
  +:+ str_float (sentiment_score row) +:+ ","
  +:+ str_float (engagement_score row) +:+ ","
  +:+ str_timestamp (timestamp row) +:+ NL.

Definition csv_text (rows : list trend) : string :=
  CSV_HEADER +:+ String.concat "" (csv_line <$> rows).

Definition export_to_csv (output_file : string) (days : Z) : M unit :=
  t ← now;
  date_threshold ← lift (date_threshold t days);
  table ← select_trends;
  let rows := export_rows date_threshold table in
  write_file output_file (csv_text rows).

End Exporting.

Definition CONFIRM_PROMPT : string :=
  "Are you sure you want to delete them? (yes/no): ".

Definition clear_old_data (days : Z) : M unit :=
  t ← now;
  date_threshold ← lift (date_threshold t days);
  table ← select_trends;
  let count :=
    length (List.filter (λ r, (DATE (timestamp r) <? date_threshold)%Z) table) in
  if (count =? 0)%nat then mret ()
  else
    confirm ← input CONFIRM_PROMPT;
    if String.eqb (lower confirm) "yes"
    then delete_where (λ r, (DATE (timestamp r) <? date_threshold)%Z)
    else mret ().

(** *** Sample data *)

(** 15:00 on day 739000; the rows are 100 days old, of the previous day
    at 10:00, and of the same day at 01:00. *)
Definition sample_clock : datetime :=
  {| ordinal := 739000; micros := 54000000000 |}.

Definition row_old : trend :=
  {| keyword := "SEO"; platform := "Google Trends"; category := "SEO & SEM";
     volume := 40; sentiment_score := 0; engagement_score := 40;
     timestamp := {| ordinal := 738900; micros := 0 |} |}.

Definition row_yesterday_morning : trend :=
  {| keyword := "ROI"; platform := "Google Trends";
     category := "Analytics & Data";
     volume := 5; sentiment_score := 0; engagement_score := 0;
     timestamp := {| ordinal := 738999; micros := 36000000000 |} |}.

Definition row_today : trend :=
  {| keyword := "blog ideas"; platform := "Reddit";
     category := "Content Marketing";
     volume := 7; sentiment_score := 0.5; engagement_score := 3;
     timestamp := {| ordinal := 739000; micros := 3600000000 |} |}.

Definition sample_world (typed : list string) : world :=
  {| trends := [row_old; row_yesterday_morning; row_today];
     clock := sample_clock; keyboard := typed; prompts := []; files := ∅ |}.


(** *** Auxiliary facts *)


(** What one run of [clear_old_data] does, by cases. *)
Lemma clear_old_data_run days w th :
  date_threshold (clock w) days = Ok th →
  clear_old_data days w =
    if (length (List.filter (λ r, (DATE (timestamp r) <? th)%Z) (trends w))
        =? 0)%nat
    then (Ok (), w)
    else
      match keyboard w with
      | [] =>
          (Raise EOFError,
           {| trends := trends w; clock := clock w; keyboard := [];
              prompts := prompts w ++ [CONFIRM_PROMPT]; files := files w |})
      | confirm :: rest =>
          (Ok (),
           {| trends :=
                if String.eqb (lower confirm) "yes"
                then List.filter (λ r, negb (DATE (timestamp r) <? th)%Z)
                       (trends w)
                else trends w;
              clock := clock w; keyboard := rest;
              prompts := prompts w ++ [CONFIRM_PROMPT]; files := files w |})
      end.
Proof.
  intros Hth. unfold clear_old_data, mbind, M_bind, now, lift, select_trends.
  rewrite Hth. simpl.
  destruct (length _ =? 0)%nat; [by destruct w|].
  unfold input. destruct (keyboard w) as [|confirm rest]; [done|].
  by destruct (String.eqb (lower confirm) "yes").
Qed.

Lemma clear_old_data_overflow days w e :
  date_threshold (clock w) days = Raise e →
  clear_old_data days w = (Raise e, w).
Proof.
  intros Hth. unfold clear_old_data, mbind, M_bind, now, lift. by rewrite Hth.
Qed.

Lemma filter_none_length {A} (f : A → bool) (l : list A) :
  (length (List.filter f l) =? 0)%nat = true ↔ Forall (λ x, f x = false) l.
Proof.
  rewrite Nat.eqb_eq. induction l as [|x l IH]; simpl.
  - split; [constructor | done].
  - destruct (f x) eqn:Hx; simpl.
    + split; [done|]. intros H. apply Forall_cons in H as [H _]. congruence.
    + rewrite IH. split; [by constructor | by intros [_ ?]%Forall_cons].
Qed.

Lemma filter_none_id {A} (f : A → bool) (l : list A) :
  Forall (λ x, f x = false) l → List.filter (λ x, negb (f x)) l = l.
Proof.
  induction 1 as [|x l Hx _ IH]; simpl; [done|]. by rewrite Hx, IH.
Qed.

Lemma clear_old_data_confirmed days w th confirm rest :
  date_threshold (clock w) days = Ok th →
  keyboard w = confirm :: rest →
  lower confirm = "yes" →
  trends (clear_old_data days w).2
  = List.filter (λ r, (th <=? DATE (timestamp r))%Z) (trends w).
Proof.
  intros Hth Hkb Hyes. rewrite (clear_old_data_run _ _ _ Hth).
  assert (Hflip : ∀ l : list trend,
            List.filter (λ r, negb (DATE (timestamp r) <? th)%Z) l
            = List.filter (λ r, (th <=? DATE (timestamp r))%Z) l).
  { intros l. apply List.filter_ext. intros r. by rewrite Z.leb_antisym. }
  destruct (length _ =? 0)%nat eqn:Hcount.
  - apply filter_none_length in Hcount.
    rewrite <- Hflip. symmetry. by apply filter_none_id.
  - rewrite Hkb. simpl. rewrite Hyes. simpl. apply Hflip.
Qed.













End DatabaseUtils.

(** ** The interactive menu ([main] of [db_utils.py]) *)

Module Menu.
Import PyStr Py Store.

(** [int(s)] as the menu reaches it: on a string of digits it is the
    number they denote; any other string raises [ValueError]. *)
Definition int (s : string) : result Z :=
  if isdigit s then Ok (digits_value s) else Raise ValueError.

(** The methods of [DatabaseUtils] the menu calls. *)
Record db_utils_methods : Type := {
  view_recent_trends : Z → Z → M unit;
  get_statistics : M unit;
  search_trends : string → M unit;
  get_trending_keywords : Z → Z → M unit;
  export_to_csv : string → Z → M unit;
  clear_old_data : Z → M unit;
  backup_database : option string → M unit
}.

Definition NL : string := String (ascii_of_nat 10) EmptyString.

Definition CHOICE_PROMPT : string := NL +:+ "Enter your choice (1-8): ".
Definition DAYS_PROMPT : string := "Enter number of days (default 7): ".
Definition LIMIT_PROMPT : string := "Enter limit (default 50): ".
Definition SEARCH_PROMPT : string := "Enter keyword to search: ".
Definition TOP_N_PROMPT : string := "Enter top N (default 20): ".
Definition FILE_PROMPT : string :=
  "Enter output filename (default: trends_export.csv): ".
Definition EXPORT_DAYS_PROMPT : string :=
  "Enter number of days to export (default 30): ".
Definition PURGE_DAYS_PROMPT : string :=
  "Delete trends older than how many days? (default 90): ".
Definition BACKUP_PROMPT : string :=
  "Enter backup filename (press Enter for auto-generated): ".
Definition CONTINUE_PROMPT : string := NL +:+ "Press Enter to continue...".

Section Main.
Variable db_utils : db_utils_methods.

(** [input(prompt).strip()] *)
Definition input_stripped (prompt : string) : M string :=
  line ← input prompt;
  mret (strip line).

(** [int(x) if x.isdigit() else default] *)
Definition int_or (x : string) (default : Z) : M Z :=
  if isdigit x then lift (int x) else mret default.

(** The action chosen in one turn of the loop; the result tells whether
    the loop was left with [break]. *)
Definition dispatch (choice : string) : M bool :=
  if String.eqb choice "1" then
    days ← input_stripped DAYS_PROMPT;
    days ← int_or days 7;
    limit ← input_stripped LIMIT_PROMPT;
    limit ← int_or limit 50;
    _ ← view_recent_trends db_utils days limit;
    mret false
  else if String.eqb choice "2" then
    _ ← get_statistics db_utils;
    mret false
  else if String.eqb choice "3" then
    keyword ← input_stripped SEARCH_PROMPT;
    _ ← (if String.eqb keyword "" then mret ()
         else search_trends db_utils keyword);
    mret false
  else if String.eqb choice "4" then
    days ← input_stripped DAYS_PROMPT;
    days ← int_or days 7;
    top_n ← input_stripped TOP_N_PROMPT;
    top_n ← int_or top_n 20;
    _ ← get_trending_keywords db_utils days top_n;
    mret false
  else if String.eqb choice "5" then
    output_file ← input_stripped FILE_PROMPT;
    let output_file :=
      if String.eqb output_file "" then "trends_export.csv" else output_file in
    days ← input_stripped EXPORT_DAYS_PROMPT;
    days ← int_or days 30;
    _ ← export_to_csv db_utils output_file days;
    mret false
  else if String.eqb choice "6" then
    days ← input_stripped PURGE_DAYS_PROMPT;
    days ← int_or days 90;
    _ ← clear_old_data db_utils days;
    mret false
  else if String.eqb choice "7" then
    backup_file ← input_stripped BACKUP_PROMPT;
    let backup_file :=
      if String.eqb backup_file "" then None else Some backup_file in
    _ ← backup_database db_utils backup_file;
    mret false
  else if String.eqb choice "8" then
    mret true
  else
    mret false.

(** One turn of [while True]: the result is [false] when the loop ends. *)
Definition menu_turn : M bool :=
  choice ← input_stripped CHOICE_PROMPT;
  stop ← dispatch choice;
  if stop : bool then mret false
  else
    _ ← input CONTINUE_PROMPT;
    mret true.


End Main.


(** The world after the lines before [rest] were read at the given
    prompts, one line per prompt. *)
Definition after_prompts (w : world) (shown : list string) (rest : list string)
    : world :=
  {| trends := trends w; clock := clock w; keyboard := rest;
     prompts := prompts w ++ shown; files := files w |}.

(** *** Auxiliary facts *)





Lemma input_stripped_run prompt w line rest :
  keyboard w = line :: rest →
  input_stripped prompt w = (Ok (strip line), after_prompts w [prompt] rest).
Proof.
  intros Hkb. unfold input_stripped, mbind, M_bind, input. by rewrite Hkb.
Qed.


Lemma after_prompts_again w shown rest shown' rest' :
  after_prompts (after_prompts w shown rest) shown' rest'
  = after_prompts w (shown ++ shown') rest'.
Proof. unfold after_prompts. simpl. by rewrite <- app_assoc. Qed.

Lemma menu_turn_run db w line rest :
  keyboard w = line :: rest →
  menu_turn db w
  = match dispatch db (strip line) (after_prompts w [CHOICE_PROMPT] rest) with
    | (Ok stop, w') =>
        if stop : bool then (Ok false, w')
        else (_ ← input CONTINUE_PROMPT; mret true) w'
    | (Raise e, w') => (Raise e, w')
    end.
Proof.
  intros Hkb. unfold menu_turn.
  unfold mbind at 1. unfold M_bind at 1.
  rewrite (input_stripped_run _ _ _ _ Hkb).
  unfold mbind at 1. unfold M_bind at 1.
  destruct (dispatch db (strip line) _) as [[stop|e] w']; [|done].
  by destruct stop.
Qed.





(** The methods as modelled above.  The statistics, the search and the
    keyword ranking only print, and the backup copies the database file:
    none of them changes the world as it is modelled here. *)
Definition modelled_db_utils (str_float : Q → string)
    (str_timestamp : datetime → string) : db_utils_methods :=
  {| view_recent_trends :=
       λ days limit, _ ← DatabaseUtils.view_recent_trends days limit; mret ();
     get_statistics := mret ();
     search_trends := λ _, mret ();
     get_trending_keywords := λ _ _, mret ();
     export_to_csv := DatabaseUtils.export_to_csv str_float str_timestamp;
     clear_old_data := DatabaseUtils.clear_old_data;
     backup_database := λ _, mret () |}.


End Menu.

(** ** Reading the exported file back

    The reader against which the round trip is stated is Python's
    [csv.reader] with its default dialect (comma as delimiter, the
    double quote as quote character, doubled quotes, not strict), fed
    the lines of the file.  Its character automaton is transcribed state by state. *)

Module CsvReader.
Import PyStr Py.

Inductive parser_state : Type :=
  | START_RECORD | START_FIELD | IN_FIELD | IN_QUOTED_FIELD
  | QUOTE_IN_QUOTED_FIELD | EAT_CRNL.

Record parser : Type := {
  state : parser_state;
  field : string;          (* the characters of the field being read *)
  fields : list string     (* the fields of the record read so far *)
}.

(** A character of a line, or the mark that ends every line. *)
Inductive symbol : Type := Char (c : ascii) | EOL.

Definition LF : ascii := ascii_of_nat 10.
Definition CR : ascii := ascii_of_nat 13.
Definition DELIMITER : ascii := ","%char.
Definition QUOTECHAR : ascii := ascii_of_nat 34.

Definition fresh : parser :=
  {| state := START_RECORD; field := EmptyString; fields := [] |}.

Definition parse_save_field (st : parser_state) (p : parser) : parser :=
  {| state := st; field := EmptyString; fields := fields p ++ [field p] |}.

Definition parse_add_char (st : parser_state) (c : ascii) (p : parser) : parser :=
  {| state := st; field := field p +:+ String c EmptyString;
     fields := fields p |}.

Definition set_state (st : parser_state) (p : parser) : parser :=
  {| state := st; field := field p; fields := fields p |}.

Definition is_newline (c : ascii) : bool := Ascii.eqb c LF || Ascii.eqb c CR.

Definition start_field (p : parser) (c : symbol) : result parser :=
  match c with
  | EOL => Ok (parse_save_field START_RECORD p)
  | Char a =>
      if is_newline a then Ok (parse_save_field EAT_CRNL p)
      else if Ascii.eqb a QUOTECHAR then Ok (set_state IN_QUOTED_FIELD p)
      else if Ascii.eqb a DELIMITER then Ok (parse_save_field START_FIELD p)
      else Ok (parse_add_char IN_FIELD a p)
  end.

Definition parse_process_char (p : parser) (c : symbol) : result parser :=
  match state p with
  | START_RECORD =>
      match c with
      | EOL => Ok p
      | Char a =>
          if is_newline a then Ok (set_state EAT_CRNL p)
          else start_field p c
      end
  | START_FIELD => start_field p c
  | IN_FIELD =>
      match c with
      | EOL => Ok (parse_save_field START_RECORD p)
      | Char a =>
          if is_newline a then Ok (parse_save_field EAT_CRNL p)
          else if Ascii.eqb a DELIMITER then Ok (parse_save_field START_FIELD p)
          else Ok (parse_add_char IN_FIELD a p)
      end
  | IN_QUOTED_FIELD =>
      match c with
      | EOL => Ok p
      | Char a =>
          if Ascii.eqb a QUOTECHAR then Ok (set_state QUOTE_IN_QUOTED_FIELD p)
          else Ok (parse_add_char IN_QUOTED_FIELD a p)
      end
  | QUOTE_IN_QUOTED_FIELD =>
      match c with
      | EOL => Ok (parse_save_field START_RECORD p)
      | Char a =>
          if Ascii.eqb a QUOTECHAR then Ok (parse_add_char IN_QUOTED_FIELD a p)
          else if Ascii.eqb a DELIMITER then Ok (parse_save_field START_FIELD p)
          else if is_newline a then Ok (parse_save_field EAT_CRNL p)
          else Ok (parse_add_char IN_FIELD a p)
      end
  | EAT_CRNL =>
      match c with
      | EOL => Ok (set_state START_RECORD p)
      | Char a => if is_newline a then Ok p else Raise ValueError
      end
  end.

(** The characters of one line, in turn. *)
Fixpoint process_line (p : parser) (line : string) : result parser :=
  match line with
  | EmptyString => Ok p
  | String c line' =>
      p' ← parse_process_char p (Char c);
      process_line p' line'
  end.

Definition at_record_start (p : parser) : bool :=
  match state p with
  | START_RECORD => true
  | _ => false
  end.

Definition in_quoted_field (p : parser) : bool :=
  match state p with
  | IN_QUOTED_FIELD => true
  | _ => false
  end.

(** The records of the remaining lines.  A record is complete when the
    end of a line leaves the automaton at a record start; a quoted field
    runs on into the next line.  At the end of input an unfinished
    record is given as it stands. *)
Fixpoint records (p : parser) (lines : list string)
    : result (list (list string)) :=
  match lines with
  | [] =>
      if negb (String.eqb (field p) EmptyString) || in_quoted_field p
      then Ok [fields (parse_save_field START_RECORD p)]
      else Ok []
  | line :: lines' =>
      p' ← process_line p line;
      p'' ← parse_process_char p' EOL;
      if at_record_start p''
      then (rest ← records fresh lines'; Ok (fields p'' :: rest))
      else records p'' lines'
  end.

(** The lines of a text, each with its line feed. *)
Fixpoint lines_of (text : string) : list string :=
  match text with
  | EmptyString => []
  | String c text' =>
      if Ascii.eqb c LF then String c EmptyString :: lines_of text'
      else match lines_of text' with
           | [] => [String c EmptyString]
           | line :: lines' => String c line :: lines'
           end
  end.

(** [list(csv.reader(f))] *)
Definition reader (text : string) : result (list (list string)) :=
  records fresh (lines_of text).

(** *** Auxiliary facts *)

Lemma process_char_fields p c p' (F : list string) :
  parse_process_char p c = Ok p' →
  F `prefix_of` fields p → F `prefix_of` fields p'.
Proof.
  intros Hstep HF.
  assert (Hgrow : F `prefix_of` fields p ++ [field p])
    by (by apply prefix_app_r).
  unfold parse_process_char, start_field in Hstep.
  destruct (state p), c as [a|]; simpl in Hstep;
    repeat match type of Hstep with
           | context [if ?b then _ else _] => destruct b
           end;
    try discriminate; injection Hstep as <-; simpl; done.
Qed.

Lemma process_line_fields line : ∀ p p' (F : list string),
  process_line p line = Ok p' →
  F `prefix_of` fields p → F `prefix_of` fields p'.
Proof.
  induction line as [|c line IH]; intros p p' F; simpl.
  - by intros [= <-].
  - destruct (parse_process_char p (Char c)) as [q|e] eqn:Hq; simpl; [|done].
    intros Hrest HF. eapply IH; [exact Hrest|]. by eapply process_char_fields.
Qed.

Lemma process_line_app a b p :
  process_line p (a +:+ b) = (p' ← process_line p a; process_line p' b).
Proof.
  revert p. induction a as [|c a IH]; intros p; simpl; [done|].
  destruct (parse_process_char p (Char c)) as [q|e]; simpl; [apply IH | done].
Qed.

Lemma end_of_line_state p p' :
  parse_process_char p EOL = Ok p' →
  at_record_start p' = true ∨ in_quoted_field p' = true.
Proof.
  unfold parse_process_char, start_field, at_record_start, in_quoted_field.
  destruct (state p) eqn:Hst; simpl; intros [= <-]; simpl; rewrite ?Hst; auto.
Qed.

(** Once some fields of a record are read, the next record given out
    begins with them. *)
Lemma records_first lines : ∀ p rows (F : list string),
  F `prefix_of` fields p →
  in_quoted_field p = true →
  records p lines = Ok rows →
  ∃ row rest, rows = row :: rest ∧ F `prefix_of` row.
Proof.
  induction lines as [|line lines IH]; intros p rows F HF Hq; simpl.
  - rewrite Hq, orb_true_r. intros [= <-]. eexists _, _. split; [done|].
    simpl. by apply prefix_app_r.
  - destruct (process_line p line) as [p'|e] eqn:Hline; simpl; [|done].
    destruct (parse_process_char p' EOL) as [p''|e] eqn:Heol; simpl; [|done].
    assert (HF'' : F `prefix_of` fields p'').
    { eapply process_char_fields; [exact Heol|].
      eapply process_line_fields; [exact Hline | exact HF]. }
    destruct (end_of_line_state _ _ Heol) as [Hstart|Hquoted].
    + rewrite Hstart. destruct (records fresh lines) as [rest|e]; simpl; [|done].
      intros [= <-]. by eexists _, _.
    + assert (Hns : at_record_start p'' = false).
      { unfold at_record_start, in_quoted_field in *. by destruct (state p''). }
      rewrite Hns. by apply IH.
Qed.

Fixpoint no_line_feed (s : string) : bool :=
  match s with
  | EmptyString => true
  | String c s' => negb (Ascii.eqb c LF) && no_line_feed s'
  end.

Lemma lines_of_prefix pre text :
  no_line_feed pre = true →
  pre ≠ EmptyString →
  ∃ line lines, lines_of (pre +:+ text) = (pre +:+ line) :: lines.
Proof.
  induction pre as [|c pre IH]; [done|]. simpl.
  intros [Hc Hpre]%andb_true_iff _. apply negb_true_iff in Hc. rewrite Hc.
  destruct pre as [|c' pre].
  - change (EmptyString +:+ text) with text.
    destruct (lines_of text) as [|line lines].
    + exists EmptyString, []. reflexivity.
    + exists line, lines. reflexivity.
  - destruct (IH Hpre) as (line & lines & ->); [done|].
    exists line, lines. reflexivity.
Qed.

Lemma lines_of_line pre text :
  no_line_feed pre = true →
  lines_of (pre +:+ String LF text) = (pre +:+ String LF EmptyString) :: lines_of text.
Proof.
  induction pre as [|c pre IH]; simpl; [done|].
  intros [Hc Hpre]%andb_true_iff. apply negb_true_iff in Hc. rewrite Hc.
  by rewrite IH.
Qed.

End CsvReader.

(** ** The exported file read back *)

Module CsvExport.
Import PyStr Py Store DatabaseUtils CsvReader.

Definition HEADER_FIELDS : list string :=
  ["Keyword"; "Platform"; "Category"; "Volume"; "Sentiment Score";
   "Engagement Score"; "Timestamp"].

(** A post title with a quoted phrase, as the social source delivers
    them: Why "growth hacking" works *)
Definition quoted_title : string :=
  "Why " +:+ QUOTE +:+ "growth hacking" +:+ QUOTE +:+ " works".

Definition quoted_row : trend :=
  {| keyword := quoted_title; platform := "Reddit";
     category := "General Marketing";
     volume := 120; sentiment_score := 0.3; engagement_score := 150;
     timestamp := {| ordinal := 739000; micros := 3600000000 |} |}.

Definition quoted_world : world :=
  {| trends := [quoted_row]; clock := sample_clock; keyboard := [];
     prompts := []; files := ∅ |}.

Section RoundTrip.
Variable str_float : Q → string.
Variable str_timestamp : datetime → string.

(** The field values a faithful re-reading of a row would give. *)
Definition row_fields (row : trend) : list string :=
  [replace_commas (keyword row); platform row; category row;
   str_int (volume row); str_float (sentiment_score row);
   str_float (engagement_score row); str_timestamp (timestamp row)].

Definition expected_records (rows : list trend) : list (list string) :=
  HEADER_FIELDS :: (row_fields <$> rows).

(** What the reader has in hand after the first four fields of the line
    written for [quoted_row]. *)
Definition line_start : string :=
  QUOTE +:+ quoted_title +:+ QUOTE +:+ ",Reddit,General Marketing,120,".

Definition after_line_start : parser :=
  {| state := START_FIELD; field := EmptyString;
     fields := ["Why growth hacking" +:+ QUOTE +:+ " works" +:+ QUOTE;
                "Reddit"; "General Marketing"; "120"] |}.

Lemma process_line_start : process_line fresh line_start = Ok after_line_start.
Proof. vm_compute. reflexivity. Qed.

Lemma csv_text_quoted_row :
  ∃ tail,
    csv_text str_float str_timestamp [quoted_row]
    = "Keyword,Platform,Category,Volume,Sentiment Score,Engagement Score,Timestamp"
      +:+ String LF (line_start +:+ tail).
Proof.
  exists (str_float 0.3 +:+ "," +:+ str_float 150 +:+ ","
          +:+ str_timestamp {| ordinal := 739000; micros := 3600000000 |} +:+ NL).
  reflexivity.
Qed.

Lemma records_header lines :
  records fresh
    (("Keyword,Platform,Category,Volume,Sentiment Score,Engagement Score,Timestamp"
      +:+ String LF EmptyString) :: lines)
  = (rest ← records fresh lines; Ok (HEADER_FIELDS :: rest)).
Proof. reflexivity. Qed.

(** Whatever follows the first four fields, the record read next
    begins with them. *)
Lemma records_line_start line lines rows :
  records fresh ((line_start +:+ line) :: lines) = Ok rows →
  ∃ row rest, rows = row :: rest ∧ fields after_line_start `prefix_of` row.
Proof.
  cbn [records]. rewrite process_line_app, process_line_start.
  assert (HF : fields after_line_start `prefix_of` fields after_line_start)
    by done.
  change (Ok after_line_start ≫= (λ p', process_line p' line))
    with (process_line after_line_start line).
  destruct (process_line after_line_start line) as [p'|e] eqn:Hline;
    [|discriminate].
  pose proof (process_line_fields _ _ _ _ Hline HF) as HF'.
  change (Ok p' ≫= ?f) with (f p'). cbv beta.
  destruct (parse_process_char p' EOL) as [p''|e] eqn:Heol; [|discriminate].
  pose proof (process_char_fields _ _ _ _ Heol HF') as HF''.
  change (Ok p'' ≫= ?f) with (f p''). cbv beta.
  destruct (end_of_line_state _ _ Heol) as [Hstart|Hquoted].
  - rewrite Hstart. destruct (records fresh lines) as [rest|e]; [|discriminate].
    intros [= <-]. by eexists _, _.
  - assert (Hns : at_record_start p'' = false).
    { unfold at_record_start, in_quoted_field in *. by destruct (state p''). }
    rewrite Hns. intros Hrec.
    by apply (records_first _ _ _ _ HF'' Hquoted Hrec).
Qed.

(** C5 at the failing input: for a stored row whose keyword holds a
    double quote, the file written by [export_to_csv] does not read
    back to the header and the row's field values, whatever the texts
    of the floats and of the timestamp are: the keyword field comes
    back with its quotes displaced. *)
Theorem export_to_csv_quote_not_restored :
  ∃ text,
    files (export_to_csv str_float str_timestamp "trends_export.csv" 30
             quoted_world).2 !! "trends_export.csv" = Some text
    ∧ text = csv_text str_float str_timestamp [quoted_row]
    ∧ reader text ≠ Ok (expected_records [quoted_row]).
Proof.
  exists (csv_text str_float str_timestamp [quoted_row]). split_and!.
  - unfold export_to_csv, mbind, M_bind, now, lift, select_trends, write_file.
    simpl. apply lookup_insert_eq.
  - done.
  - destruct csv_text_quoted_row as [tail ->].
    unfold reader. rewrite lines_of_line by reflexivity.
    rewrite records_header.
    destruct (lines_of_prefix line_start tail) as (line & lines & ->);
      [reflexivity | discriminate |].
    destruct (records fresh ((line_start +:+ line) :: lines)) as [rows|e] eqn:Hrec;
      [|discriminate].
    destruct (records_line_start _ _ _ Hrec) as (row & rest & -> & [k ->]).
    intros Heq. discriminate Heq.
Qed.

End RoundTrip.

(** Two checks of the reader on files as [export_to_csv] writes them,
    with the floats and the timestamp printed as fixed texts.  Rows
    without double quotes read back as claimed, a comma of the keyword
    having become a semicolon. *)
Example clean_rows_read_back :
  let comma_row :=
    {| keyword := "SEO, SEM and content"; platform := "Reddit";
       category := "SEO & SEM"; volume := 12; sentiment_score := 0.5;
       engagement_score := 20;
       timestamp := {| ordinal := 739000; micros := 0 |} |} in
  reader (csv_text (λ _, "0.5") (λ _, "2024-04-26 10:00:00")
            [comma_row; row_today])
  = Ok [HEADER_FIELDS;
        ["SEO; SEM and content"; "Reddit"; "SEO & SEM"; "12"; "0.5"; "0.5";
         "2024-04-26 10:00:00"];
        ["blog ideas"; "Reddit"; "Content Marketing"; "7"; "0.5"; "0.5";
         "2024-04-26 10:00:00"]].
Proof. vm_compute. reflexivity. Qed.

(** A keyword that ends in a single double quote (an inch mark, say)
    leaves the quoted field open: the rest of its line and the next line
    are read into one field, and two observations come back as a single
    data row. *)
Example quote_at_end_swallows_next_row :
  let open_row :=
    {| keyword := "best monitor 27" +:+ QUOTE;
       platform := "Reddit"; category := "General Marketing"; volume := 3;
       sentiment_score := 0; engagement_score := 4;
       timestamp := {| ordinal := 739000; micros := 0 |} |} in
  ∃ header data,
    reader (csv_text (λ _, "0.5") (λ _, "2024-04-26 10:00:00")
              [open_row; row_today])
    = Ok [header; data].
Proof. eexists _, _. vm_compute. reflexivity. Qed.

End CsvExport.

(** ** The aggregator ([TrendExtractor.get_current_trends_summary]) *)

Module TrendSummary.
Import Py Store.

(** The value kept per keyword in [keyword_data]. *)
Record keyword_entry : Type := {
  e_keyword : string;
  e_platforms : gset string;
  e_categories : gset string;
  e_total_volume : Z;
  e_total_engagement : Q;
  e_sentiment_scores : list Q;
  e_occurrences : Z
}.

Definition new_entry (keyword : string) : keyword_entry :=
  {| e_keyword := keyword; e_platforms := ∅; e_categories := ∅;
     e_total_volume := 0; e_total_engagement := 0%Q;
     e_sentiment_scores := []; e_occurrences := 0 |}.

(** The six updates made for one observation. *)
Definition add_observation (t : trend) (e : keyword_entry) : keyword_entry :=
  {| e_keyword := e_keyword e;
     e_platforms := e_platforms e ∪ {[platform t]};
     e_categories := e_categories e ∪ {[category t]};
     e_total_volume := (e_total_volume e + volume t)%Z;
     e_total_engagement := (e_total_engagement e + engagement_score t)%Q;
     e_sentiment_scores := e_sentiment_scores e ++ [sentiment_score t];
     e_occurrences := (e_occurrences e + 1)%Z |}.

(** One turn of [for trend in trends]. *)
Definition aggregate_step (keyword_data : list (string * keyword_entry))
    (t : trend) : list (string * keyword_entry) :=
  let k := keyword t in
  let keyword_data :=
    match PyDict.get keyword_data k with
    | None => PyDict.set k (new_entry k) keyword_data
    | Some _ => keyword_data
    end in
  match PyDict.get keyword_data k with
  | Some e => PyDict.set k (add_observation t e) keyword_data
  | None => keyword_data
  end.

Definition aggregate (trends : list trend) : list (string * keyword_entry) :=
  fold_left aggregate_step trends [].

(** [sum(xs)] *)
Definition py_sum (xs : list Q) : Q := fold_left Qplus xs 0%Q.

Record summary_row : Type := {
  s_keyword : string;
  s_platforms : list string;
  s_categories : list string;
  s_total_volume : Z;
  s_total_engagement : Q;
  s_avg_sentiment : Q;
  s_occurrences : Z;
  s_combined_score : Q
}.

(** The row appended to [summary] for one entry; [list(a_set)] lists the
    members once each, in an order the program does not control. *)
Definition summarize (data : keyword_entry) : summary_row :=
  let avg_sentiment :=
    match e_sentiment_scores data with
    | [] => 0%Q
    | scores => (py_sum scores / inject_Z (Z.of_nat (length scores)))%Q
    end in
  {| s_keyword := e_keyword data;
     s_platforms := elements (e_platforms data);
     s_categories := elements (e_categories data);
     s_total_volume := e_total_volume data;
     s_total_engagement := e_total_engagement data;
     s_avg_sentiment := avg_sentiment;
     s_occurrences := e_occurrences data;
     s_combined_score :=
       (inject_Z (e_total_volume data) + e_total_engagement data)%Q |}.

(** [xs[:n]]: a negative bound counts from the end. *)
Definition slice_to {A} (n : Z) (xs : list A) : list A :=
  if (0 <=? n)%Z then take (Z.to_nat n) xs
  else take (Z.to_nat (Z.of_nat (length xs) + n)) xs.

(** The body of [get_current_trends_summary] once the observations of
    the window are read. *)
Definition trends_summary (trends : list trend) (top_n : Z) : list summary_row :=
  let summary := summarize <$> PyDict.values (aggregate trends) in
  let summary := DescSort.sort s_combined_score Qle_bool summary in
  slice_to top_n summary.

(** [DatabaseManager.get_historical_trends(days)] *)
Definition get_historical_trends (days : Z) : M (list trend) :=
  t ← now;
  date_threshold ← lift (date_threshold t days);
  table ← select_trends;
  mret (DescSort.sort timestamp datetime_leb
          (List.filter (λ r, (date_threshold <=? DATE (timestamp r))%Z) table)).

Definition get_current_trends_summary (top_n : Z) : M (list summary_row) :=
  trends ← get_historical_trends 7;
  mret (trends_summary trends top_n).

(** *** What the claim says of a row, in the words of the specification *)

(** The observations of one keyword, in the order read. *)
Definition observations_of (k : string) (trends : list trend) : list trend :=
  filter (λ t, keyword t = k) trends.

Definition sum_Z (xs : list Z) : Z := foldr Z.add 0%Z xs.
Definition sum_Q (xs : list Q) : Q := foldr Qplus 0%Q xs.

Definition mean (xs : list Q) : Q :=
  (sum_Q xs / inject_Z (Z.of_nat (length xs)))%Q.

Definition row_summarizes (trends : list trend) (row : summary_row) : Prop :=
  let os := observations_of (s_keyword row) trends in
  s_total_volume row = sum_Z (volume <$> os)
  ∧ (s_total_engagement row == sum_Q (engagement_score <$> os))%Q
  ∧ (s_avg_sentiment row == mean (sentiment_score <$> os))%Q
  ∧ s_occurrences row = Z.of_nat (length os)
  ∧ NoDup (s_platforms row)
  ∧ (∀ p, p ∈ s_platforms row ↔ p ∈ platform <$> os)
  ∧ NoDup (s_categories row)
  ∧ (∀ c, c ∈ s_categories row ↔ c ∈ category <$> os)
  ∧ (s_combined_score row
     == inject_Z (s_total_volume row) + s_total_engagement row)%Q.

(** *** Auxiliary facts *)

(** What the entry kept for a keyword holds, given its observations. *)
Definition entry_of (k : string) (os : list trend) (e : keyword_entry) : Prop :=
  e_keyword e = k
  ∧ e_platforms e = list_to_set (platform <$> os)
  ∧ e_categories e = list_to_set (category <$> os)
  ∧ e_total_volume e = sum_Z (volume <$> os)
  ∧ (e_total_engagement e == sum_Q (engagement_score <$> os))%Q
  ∧ e_sentiment_scores e = sentiment_score <$> os
  ∧ e_occurrences e = Z.of_nat (length os).

Lemma sum_Z_snoc xs x : sum_Z (xs ++ [x]) = (sum_Z xs + x)%Z.
Proof.
  unfold sum_Z. induction xs as [|y xs IH]; simpl; [lia|]. rewrite IH. lia.
Qed.

Lemma sum_Q_snoc xs x : (sum_Q (xs ++ [x]) == sum_Q xs + x)%Q.
Proof.
  unfold sum_Q. induction xs as [|y xs IH]; simpl; [ring|]. rewrite IH. ring.
Qed.

Lemma py_sum_from xs a : (fold_left Qplus xs a == a + sum_Q xs)%Q.
Proof.
  revert a. induction xs as [|x xs IH]; intros a; simpl; [ring|].
  rewrite IH. unfold sum_Q. simpl. ring.
Qed.

Lemma py_sum_sum_Q xs : (py_sum xs == sum_Q xs)%Q.
Proof. unfold py_sum. rewrite py_sum_from. ring. Qed.

Lemma entry_of_new k : entry_of k [] (new_entry k).
Proof. unfold entry_of. simpl. split_and!; try done. Qed.

Lemma entry_of_add k os e t :
  entry_of k os e → entry_of k (os ++ [t]) (add_observation t e).
Proof.
  intros (Hk & Hp & Hc & Hv & He & Hs & Ho). unfold entry_of. simpl.
  rewrite !fmap_app. simpl. split_and!.
  - done.
  - rewrite Hp, list_to_set_app_L. simpl. by rewrite (right_id_L ∅ (∪)).
  - rewrite Hc, list_to_set_app_L. simpl. by rewrite (right_id_L ∅ (∪)).
  - by rewrite Hv, sum_Z_snoc.
  - by rewrite He, sum_Q_snoc.
  - by rewrite Hs.
  - rewrite Ho, length_app. simpl. lia.
Qed.

Definition aggregated (trends : list trend)
    (d : list (string * keyword_entry)) : Prop :=
  NoDup (PyDict.keys d)
  ∧ ∀ k, match PyDict.get d k with
         | Some e => k ∈ keyword <$> trends
                     ∧ entry_of k (observations_of k trends) e
         | None => k ∉ keyword <$> trends
         end.

Lemma observations_of_snoc k trends t :
  observations_of k (trends ++ [t])
  = if decide (keyword t = k) then observations_of k trends ++ [t]
    else observations_of k trends.
Proof.
  unfold observations_of. rewrite filter_app, filter_cons, filter_nil.
  destruct (decide (keyword t = k)); [done | by rewrite app_nil_r].
Qed.

Lemma observations_of_absent k trends :
  k ∉ keyword <$> trends → observations_of k trends = [].
Proof.
  unfold observations_of. induction trends as [|t ts IH]; [done|].
  rewrite fmap_cons, not_elem_of_cons. intros [Hne Hk].
  rewrite filter_cons, decide_False by done. by apply IH.
Qed.

Lemma aggregate_step_aggregated trends d t :
  aggregated trends d → aggregated (trends ++ [t]) (aggregate_step d t).
Proof.
  intros [Hnd Hget]. unfold aggregate_step.
  set (k0 := keyword t).
  set (d1 := match PyDict.get d k0 with
             | None => PyDict.set k0 (new_entry k0) d
             | Some _ => d
             end).
  assert (H1 : ∃ e0, PyDict.get d1 k0 = Some e0
                     ∧ entry_of k0 (observations_of k0 trends) e0
                     ∧ NoDup (PyDict.keys d1)
                     ∧ ∀ k, k ≠ k0 → PyDict.get d1 k = PyDict.get d k).
  { unfold d1. pose proof (Hget k0) as H0.
    destruct (PyDict.get d k0) as [e0|] eqn:Hk0.
    - exists e0. destruct H0 as [_ H0]. by split_and!.
    - exists (new_entry k0). split_and!.
      + by rewrite PyDict.get_set, String.eqb_refl.
      + rewrite observations_of_absent by done. apply entry_of_new.
      + rewrite PyDict.keys_set, Hk0. apply NoDup_app. split_and!; [done| |].
        * intros x Hx ->%list_elem_of_singleton.
          by apply PyDict.get_None in Hk0.
        * apply NoDup_singleton.
      + intros k Hne. rewrite PyDict.get_set.
        by destruct (String.eqb_spec k k0). }
  destruct H1 as (e0 & Hd1 & He0 & Hnd1 & Hother). rewrite Hd1. split.
  - by rewrite PyDict.keys_set, Hd1.
  - intros k. rewrite PyDict.get_set, fmap_app, observations_of_snoc.
    destruct (String.eqb_spec k k0) as [->|Hne].
    + fold k0. rewrite decide_True by done. split.
      * apply elem_of_app. right. simpl. left.
      * by apply entry_of_add.
    + rewrite Hother by done. unfold k0 in Hne.
      rewrite decide_False by done. specialize (Hget k).
      destruct (PyDict.get d k) as [e|].
      * destruct Hget as [Hin He]. split; [|done]. apply elem_of_app. by left.
      * rewrite not_elem_of_app. split; [done|]. simpl.
        rewrite not_elem_of_cons. split; [done | apply not_elem_of_nil].
Qed.

Lemma aggregate_aggregated trends : aggregated trends (aggregate trends).
Proof.
  unfold aggregate. induction trends as [|t trends IH] using rev_ind.
  - split; [constructor|]. intros k. simpl. apply not_elem_of_nil.
  - rewrite fold_left_app. simpl. by apply aggregate_step_aggregated.
Qed.

Lemma summarize_entry trends k e :
  entry_of k (observations_of k trends) e →
  s_keyword (summarize e) = k ∧ row_summarizes trends (summarize e).
Proof.
  intros (Hk & Hp & Hc & Hv & He & Hs & Ho). split; [done|].
  unfold row_summarizes. simpl. rewrite Hk.
  set (os := observations_of k trends) in *. split_and!.
  - done.
  - done.
  - rewrite Hs. destruct (sentiment_score <$> os) as [|x xs] eqn:Hos.
    + unfold mean. simpl. reflexivity.
    + unfold mean. by rewrite py_sum_sum_Q.
  - done.
  - apply NoDup_elements.
  - intros p. by rewrite elem_of_elements, Hp, elem_of_list_to_set.
  - apply NoDup_elements.
  - intros c. by rewrite elem_of_elements, Hc, elem_of_list_to_set.
  - reflexivity.
Qed.

Lemma aggregate_entries trends k e :
  (k, e) ∈ aggregate trends →
  k ∈ keyword <$> trends ∧ entry_of k (observations_of k trends) e.
Proof.
  destruct (aggregate_aggregated trends) as [Hnd Hget]. intros Hin.
  specialize (Hget k). by rewrite (PyDict.get_lookup _ _ _ Hnd Hin) in Hget.
Qed.

Lemma summary_keywords trends :
  s_keyword <$> (summarize <$> PyDict.values (aggregate trends))
  = PyDict.keys (aggregate trends).
Proof.
  pose proof (aggregate_entries trends) as Hent.
  unfold PyDict.values, PyDict.keys.
  induction (aggregate trends) as [|[k e] d IH]; simpl; [done|].
  destruct (Hent k e) as [_ (Hk & _)]; [left|]. simpl. rewrite Hk. f_equal.
  apply IH. intros k' e' Hin. apply Hent. by right.
Qed.

Lemma trends_summary_rows trends top_n :
  (0 ≤ top_n)%Z →
  ∃ rows,
    trends_summary trends top_n = take (Z.to_nat top_n) rows
    ∧ Sorted (λ a b, (s_combined_score b <= s_combined_score a)%Q) rows
    ∧ NoDup (s_keyword <$> rows)
    ∧ (∀ k, k ∈ s_keyword <$> rows ↔ k ∈ keyword <$> trends)
    ∧ Forall (row_summarizes trends) rows.
Proof.
  intros Hn. unfold trends_summary.
  set (summary := summarize <$> PyDict.values (aggregate trends)).
  set (rows := DescSort.sort s_combined_score Qle_bool summary).
  assert (Hperm : rows ≡ₚ summary) by apply DescSort.sort_perm.
  exists rows. split_and!.
  - unfold slice_to. by rewrite (proj2 (Z.leb_le 0 top_n) Hn).
  - eapply DescSort.Sorted_weaken;
      [|apply (DescSort.sort_sorted _ _ DescSort.Qle_bool_total)].
    intros a b Hab. by apply Qle_bool_iff.
  - rewrite Hperm. unfold summary. rewrite summary_keywords.
    apply aggregate_aggregated.
  - intros k. rewrite Hperm. unfold summary. rewrite summary_keywords.
    destruct (aggregate_aggregated trends) as [_ Hget]. specialize (Hget k).
    destruct (PyDict.get (aggregate trends) k) as [e|] eqn:Hk.
    + destruct Hget as [Hin _]. split; [by intros _|]. intros _.
      apply PyDict.elem_of_get in Hk.
      apply (list_elem_of_fmap_2 fst _ _ Hk).
    + apply PyDict.get_None in Hk. split; [done|]. by intros ?.
  - rewrite Hperm. unfold summary. apply Forall_forall. intros row Hrow.
    apply list_elem_of_fmap in Hrow as (e & -> & He).
    apply list_elem_of_fmap in He as ([k e'] & -> & Hin). simpl.
    apply aggregate_entries in Hin as [_ Hent].
    by apply (summarize_entry trends k).
Qed.

(** C3: when the window of observations is read from the store,
    [get_current_trends_summary] returns the first [top_n] rows of a
    list that is sorted by descending combined score and holds exactly
    one row per distinct keyword of the observations; for each row, over
    the observations of its keyword, the totals are the sums of volume
    and of engagement, the average is the arithmetic mean of the
    sentiment scores, the occurrences are their number, the platforms
    and categories are the values seen (each listed once), and the
    combined score is the total volume plus the total engagement. *)
Theorem get_current_trends_summary_rows (w : world) (top_n : Z)
    (trends : list trend) :
  (0 ≤ top_n)%Z →
  (get_historical_trends 7 w).1 = Ok trends →
  ∃ rows,
    get_current_trends_summary top_n w = (Ok (take (Z.to_nat top_n) rows), w)
    ∧ Sorted (λ a b, (s_combined_score b <= s_combined_score a)%Q) rows
    ∧ NoDup (s_keyword <$> rows)
    ∧ (∀ k, k ∈ s_keyword <$> rows ↔ k ∈ keyword <$> trends)
    ∧ Forall (row_summarizes trends) rows.
Proof.
  intros Hn Hread.
  destruct (trends_summary_rows trends top_n Hn) as (rows & Hsum & Hrest).
  exists rows. split; [|exact Hrest].
  unfold get_current_trends_summary, mbind, M_bind.
  unfold get_historical_trends, mbind, M_bind, now, lift, select_trends in *.
  destruct (date_threshold (clock w) 7) as [th|e]; simpl in *; [|done].
  injection Hread as <-. unfold mret, M_ret. by rewrite Hsum.
Qed.

Lemma get_current_trends_summary_rows_witness :
  let w := DatabaseUtils.sample_world [] in
  ∃ rows,
    get_current_trends_summary 20 w = (Ok (take (Z.to_nat 20) rows), w)
    ∧ Sorted (λ a b, (s_combined_score b <= s_combined_score a)%Q) rows
    ∧ NoDup (s_keyword <$> rows)
    ∧ (∀ k, k ∈ s_keyword <$> rows
            ↔ k ∈ keyword <$> [DatabaseUtils.row_today;
                               DatabaseUtils.row_yesterday_morning])
    ∧ Forall (row_summarizes [DatabaseUtils.row_today;
                              DatabaseUtils.row_yesterday_morning]) rows.
Proof.
  apply (get_current_trends_summary_rows (DatabaseUtils.sample_world []) 20
           [DatabaseUtils.row_today; DatabaseUtils.row_yesterday_morning]).
  - lia.
  - reflexivity.
Defined.

(** The aggregation example of the specification: two observations of
    one keyword on two platforms. *)
Example summary_of_two_observations :
  let a1 := {| keyword := "A"; platform := "platform1"; category := "c";
               volume := 10; sentiment_score := 0.5; engagement_score := 5;
               timestamp := {| ordinal := 739000; micros := 0 |} |} in
  let a2 := {| keyword := "A"; platform := "platform2"; category := "c";
               volume := 3; sentiment_score := -0.5; engagement_score := 1;
               timestamp := {| ordinal := 739000; micros := 1 |} |} in
  ∃ row,
    trends_summary [a1; a2] 20 = [row]
    ∧ s_keyword row = "A"
    ∧ s_total_volume row = 13%Z
    ∧ (s_total_engagement row == 6)%Q
    ∧ s_occurrences row = 2%Z
    ∧ (s_combined_score row == 19)%Q
    ∧ (s_avg_sentiment row == 0)%Q
    ∧ (∀ p, p ∈ s_platforms row ↔ p = "platform1" ∨ p = "platform2").
Proof.
  cbv zeta. eexists. split; [reflexivity|]. split_and!; try reflexivity.
  intros p. simpl.
  rewrite elem_of_elements, !elem_of_union, !elem_of_singleton, elem_of_empty.
  tauto.
Qed.

End TrendSummary.

(** ** [TrendExtractor.process_trends] and [DatabaseManager.save_trend] *)

Module TrendExtractor.
Import PyStr Py.

(** The values held in a trend record (a Python [dict] with string
    keys): texts, integers, floats, and the metadata blob. *)
Inductive value : Type :=
  | VStr (s : string)
  | VInt (n : Z)
  | VFloat (q : Q)
  | VMeta (fields : list (string * string)).

(** One [INSERT INTO trends]: the seven values bound to the statement
    (the metadata as its JSON text is left as the value it comes from). *)
Record saved_trend : Type := {
  keyword : value;
  platform : value;
  category : value;
  volume : value;
  sentiment_score : value;
  engagement_score : value;
  metadata : value
}.

(** [d[key]] *)
Definition getitem (d : gmap string value) (key : string) : result value :=
  match d !! key with
  | Some v => Ok v
  | None => Raise KeyError
  end.

(** [d.get(key, fallback)] *)
Definition get (d : gmap string value) (key : string) (fallback : value)
    : value :=
  default fallback (d !! key).

(** [key in d] *)
Definition contains (d : gmap string value) (key : string) : bool :=
  bool_decide (is_Some (d !! key)).

Definition save_trend (trend_data : gmap string value) (table : list saved_trend)
    : result (list saved_trend) :=
  k ← getitem trend_data "keyword";
  p ← getitem trend_data "platform";
  Ok (table ++
      [{| keyword := k; platform := p;
          category := get trend_data "category" (VStr "Uncategorized");
          volume := get trend_data "volume" (VInt 0);
          sentiment_score := get trend_data "sentiment_score" (VFloat 0);
          engagement_score := get trend_data "engagement_score" (VFloat 0);
          metadata := get trend_data "metadata" (VMeta []) |}]).

(** [a + b] on numbers: integers add exactly, a float operand makes the
    sum a float. *)
Definition add (a b : value) : result value :=
  match a, b with
  | VInt x, VInt y => Ok (VInt (x + y))
  | VInt x, VFloat y => Ok (VFloat (inject_Z x + y))
  | VFloat x, VInt y => Ok (VFloat (x + inject_Z y))
  | VFloat x, VFloat y => Ok (VFloat (x + y))
  | _, _ => Raise ValueError
  end.

(** The ranking key [volume + engagement_score] of a stored row. *)
Definition combined_score (row : saved_trend) : result value :=
  add (volume row) (engagement_score row).

Section Process.

Variable generate_content : string → result SentimentAnalyzer.response.

(** [categorizer.categorize(trend['keyword'])]: the keyword must be a
    text, since [categorize] lower-cases it. *)
Definition categorize_value (v : value) : result string :=
  match v with
  | VStr keyword => Ok (TrendCategorizer.categorize Config.CATEGORIES keyword)
  | _ => Raise AttributeError
  end.

Definition analyze_value (v : value) : result Q :=
  match v with
  | VStr keyword =>
      SentimentAnalyzer.analyze_sentiment generate_content keyword
  | _ => Ok 0%Q
  end.

(** The body of [for trend in trends]: the record as it is after the
    turn, and the table after [save_trend]. *)
Definition process_trend (trend : gmap string value) (table : list saved_trend)
    : result (gmap string value * list saved_trend) :=
  k ← getitem trend "keyword";
  label ← categorize_value k;
  let trend := <["category" := VStr label]> trend in
  trend ← (if contains trend "sentiment_score" then Ok trend
           else k ← getitem trend "keyword";
                score ← analyze_value k;
                Ok (<["sentiment_score" := VFloat score]> trend));
  let trend :=
    if contains trend "engagement_score" then trend
    else <["engagement_score" := get trend "volume" (VInt 0)]> trend in
  table ← save_trend trend table;
  Ok (trend, table).

(** The loop: the records processed so far stay saved when a later one
    raises. *)
Fixpoint process_trends (trends : list (gmap string value))
    (table : list saved_trend)
    : result (list (gmap string value)) * list saved_trend :=
  match trends with
  | [] => (Ok [], table)
  | trend :: rest =>
      match process_trend trend table with
      | Raise e => (Raise e, table)
      | Ok (trend', table') =>
          match process_trends rest table' with
          | (Ok rest', table'') => (Ok (trend' :: rest'), table'')
          | (Raise e, table'') => (Raise e, table'')
          end
      end
  end.

End Process.

(** A record as [GoogleTrendsMonitor.get_trending_topics] builds it: no
    [engagement_score] field. *)
Definition google_record : gmap string value :=
  list_to_map
    [("keyword", VStr "SEO"); ("platform", VStr "Google Trends");
     ("volume", VInt 40);
     ("metadata", VMeta [("max_interest", "75"); ("trend_direction", "rising")])].


(** *** Auxiliary facts *)

Lemma contains_spec (d : gmap string value) key :
  contains d key = true ↔ is_Some (d !! key).
Proof. unfold contains. apply bool_decide_eq_true. Qed.




(** The Google Trends record of the example is saved with engagement 40
    next to volume 40, hence with ranking score 80. *)
Example google_record_saved :
  ∃ trend' row,
    process_trends (λ _, Raise ExternalError) [google_record] []
    = (Ok [trend'], [row])
    ∧ volume row = VInt 40
    ∧ engagement_score row = VInt 40
    ∧ category row = VStr "SEO & SEM"
    ∧ sentiment_score row = VFloat 0
    ∧ combined_score row = Ok (VInt 80).
Proof. eexists _, _. split; [vm_compute; reflexivity|]. by split_and!. Qed.

End TrendExtractor.

(** * Further properties of the code *)

(** ** More on [TrendCategorizer.categorize] *)

Module StrFacts.

Lemma append_cons (x : ascii) (a b : string) :
  String x a +:+ b = String x (a +:+ b).
Proof. reflexivity. Qed.

Lemma append_nil_l (a : string) : EmptyString +:+ a = a.
Proof. reflexivity. Qed.

Lemma append_assoc (a b c : string) : (a +:+ b) +:+ c = a +:+ (b +:+ c).
Proof.
  induction a as [|x a IH]; [done|]. rewrite !append_cons. by rewrite IH.
Qed.

Lemma append_nil_r (a : string) : a +:+ EmptyString = a.
Proof. induction a as [|x a IH]; [done|]. rewrite append_cons. by rewrite IH. Qed.

Lemma length_append (a b : string) :
  String.length (a +:+ b) = (String.length a + String.length b)%nat.
Proof.
  induction a as [|x a IH]; [done|]. rewrite append_cons. simpl. by rewrite IH.
Qed.

End StrFacts.

Module CategorizerLaws.
Import PyStr TrendCategorizer.

Lemma lower_app a b : lower (a +:+ b) = lower a +:+ lower b.
Proof. induction a as [|c a IH]; simpl; [done|]. by rewrite IH. Qed.


Lemma keys_category_scores_acc keyword_lower categories
    (acc : list (string * nat)) k :
  k ∈ PyDict.keys
        (fold_left
           (λ d entry,
              let s := score keyword_lower (snd entry) in
              if (0 <? s)%nat then PyDict.set (fst entry) s d else d)
           categories acc) →
  k ∈ PyDict.keys acc ∨ k ∈ fst <$> categories.
Proof.
  revert acc. induction categories as [|[c trig] cats IH]; intros acc; simpl.
  - by left.
  - intros Hk. apply IH in Hk as [Hk|Hk]; [|right; by right].
    destruct (0 <? score keyword_lower trig)%nat; [|by left].
    rewrite PyDict.keys_set in Hk. destruct (PyDict.get acc c); [by left|].
    apply elem_of_app in Hk as [Hk|Hk]; [by left|].
    apply list_elem_of_singleton in Hk as ->. right. left.
Qed.

(** [categorize] never makes up a label: it returns a label of the
    category map or the default 'General Marketing'. *)
Theorem categorize_label_or_default categories keyword :
  categorize categories keyword ∈ "General Marketing" :: (fst <$> categories).
Proof.
  unfold categorize.
  set (d := category_scores categories (lower keyword)).
  assert (Hkeys : ∀ k, k ∈ PyDict.keys d → k ∈ fst <$> categories).
  { intros k Hk. apply keys_category_scores_acc in Hk as [Hk|Hk]; [|done].
    by apply elem_of_nil in Hk. }
  destruct (PyDict.keys d) as [|k ks]; [left|]. right.
  destruct (max_from_spec (score_of d) k ks) as (pre & post & Heq & _).
  apply Hkeys. rewrite Heq. apply elem_of_app. right. left.
Qed.


End CategorizerLaws.

(** ** More on [SentimentAnalyzer] *)

Module SentimentLaws.
Import PyStr Py SentimentAnalyzer.

Section Batch.
Variable generate_content : string → result response.

(** [batch_analyze]: one score per text, in order (the pause between
    calls is left out). *)
Fixpoint batch_analyze (texts : list string) : result (list Q) :=
  match texts with
  | [] => Ok []
  | text_in :: rest =>
      score ← analyze_sentiment generate_content text_in;
      scores ← batch_analyze rest;
      Ok (score :: scores)
  end.

End Batch.

(** *** Auxiliary facts *)

Lemma analyze_sentiment_in_range generate_content text_in :
  ∃ score, analyze_sentiment generate_content text_in = Ok score
           ∧ (-1 <= score <= 1)%Q.
Proof.
  unfold analyze_sentiment, analyze_sentiment_body, try_except.
  assert (Hzero : (-1 <= 0 <= 1)%Q) by (split; discriminate).
  destruct (generate_content _) as [resp|e]; simpl; [|by eexists].
  destruct (text resp) as [raw|e]; simpl; [|by eexists].
  destruct (first_number (strip raw)) as [token|e]; simpl; [|by eexists].
  destruct (float token) as [score|e]; simpl; [|by eexists].
  eexists. split; [done|]. apply clamp_bounds.
Qed.









Lemma digit_not_point c : is_digit c = true → Ascii.eqb c "." = false.
Proof.
  intros Hd. destruct (Ascii.eqb_spec c ".") as [->|]; [|done].
  by vm_compute in Hd.
Qed.









(** [batch_analyze] returns one score per text, in order, none outside
    [-1, 1], and never raises, whatever the service does. *)
Theorem batch_analyze_scores generate_content texts :
  ∃ scores,
    batch_analyze generate_content texts = Ok scores
    ∧ length scores = length texts
    ∧ Forall (λ s, (-1 <= s <= 1)%Q) scores
    ∧ ∀ i text_in, texts !! i = Some text_in →
        (Ok <$> scores !! i) = Some (analyze_sentiment generate_content text_in).
Proof.
  induction texts as [|t texts (scores & Hrun & Hlen & Hall & Hnth)]; simpl.
  - exists []. by split_and!.
  - destruct (analyze_sentiment_in_range generate_content t) as (s & Hs & Hb).
    exists (s :: scores). rewrite Hs, Hrun. simpl. split_and!.
    + done.
    + by rewrite Hlen.
    + by constructor.
    + intros [|i] text_in; simpl.
      * intros [= <-]. by rewrite Hs.
      * apply Hnth.
Qed.

End SentimentLaws.

(** ** More on the store utilities of [db_utils.py] *)

Module StoreLaws.
Import PyStr Py Store DatabaseUtils.

(** *** Auxiliary facts *)



Lemma export_to_csv_run str_float str_timestamp output_file days w th :
  date_threshold (clock w) days = Ok th →
  export_to_csv str_float str_timestamp output_file days w
  = (Ok (),
     {| trends := trends w; clock := clock w; keyboard := keyboard w;
        prompts := prompts w;
        files := <[output_file :=
                     csv_text str_float str_timestamp
                       (export_rows th (trends w))]> (files w) |}).
Proof.
  intros Hth.
  unfold export_to_csv, mbind, M_bind, now, lift, select_trends, write_file.
  by rewrite Hth.
Qed.


(** A second purge with the same [days], right after a confirmed one,
    finds nothing to delete: it returns without asking for confirmation
    and leaves everything as it is. *)
Theorem clear_old_data_twice days w th confirm rest :
  date_threshold (clock w) days = Ok th →
  keyboard w = confirm :: rest →
  lower confirm = "yes" →
  let w1 := (clear_old_data days w).2 in
  clear_old_data days w1 = (Ok (), w1).
Proof.
  intros Hth Hkb Hyes w1.
  assert (Hclock : clock w1 = clock w).
  { unfold w1. rewrite (clear_old_data_run _ _ _ Hth).
    destruct (length _ =? 0)%nat; [done|]. by rewrite Hkb. }
  assert (Htr : trends w1
                = List.filter (λ r, (th <=? DATE (timestamp r))%Z) (trends w))
    by (by apply (clear_old_data_confirmed days w th confirm rest)).
  rewrite (clear_old_data_run days w1 th) by (by rewrite Hclock).
  assert (Hzero : (length (List.filter (λ r, (DATE (timestamp r) <? th)%Z)
                             (trends w1)) =? 0)%nat = true).
  { apply filter_none_length. rewrite Htr. apply List.Forall_forall.
    intros r Hr. apply List.filter_In in Hr as [_ Hr].
    apply Z.leb_le in Hr. apply Z.ltb_ge. lia. }
  by rewrite Hzero.
Qed.

Lemma clear_old_data_twice_witness :
  let w1 := (clear_old_data 1 (sample_world ["yes"])).2 in
  clear_old_data 1 w1 = (Ok (), w1).
Proof.
  apply (clear_old_data_twice 1 (sample_world ["yes"]) 738999%Z "yes" []);
    reflexivity.
Defined.





(** A number of days that leaves the calendar (beyond year 1 backwards,
    or more than 999999999 days) makes the purge raise [OverflowError]
    before it counts or asks anything; nothing is changed. *)
Theorem clear_old_data_out_of_range days w :
  (ordinal (clock w) - days < 1 ∨ 999999999 < Z.abs days)%Z →
  clear_old_data days w = (Raise OverflowError, w).
Proof.
  intros Hout. apply clear_old_data_overflow.
  unfold date_threshold, minus_days.
  destruct (Z.leb_spec (Z.abs days) 999999999); [|done].
  destruct Hout as [Hout|Hout]; [|lia].
  by rewrite (proj2 (Z.leb_gt 1 (ordinal (clock w) - days)) Hout).
Qed.

Lemma clear_old_data_out_of_range_witness :
  clear_old_data 999999 (sample_world ["yes"])
  = (Raise OverflowError, sample_world ["yes"]).
Proof.
  apply (clear_old_data_out_of_range 999999 (sample_world ["yes"])).
  left. simpl. lia.
Defined.

End StoreLaws.

(** ** More on the menu loop of [db_utils.py] *)

Module MenuLaws.
Import PyStr Py Store Menu.

Section Loop.
Variable db_utils : db_utils_methods.

(** [while True]: at most [fuel] turns are run; [None] tells that the
    loop was still going on after them. *)
Fixpoint main_loop (fuel : nat) : M (option unit) :=
  match fuel with
  | O => mret None
  | S fuel' =>
      continue ← menu_turn db_utils;
      if continue : bool then main_loop fuel' else mret (Some ())
  end.

End Loop.

(** The choices the menu knows. *)
Definition CHOICES : list string := ["1"; "2"; "3"; "4"; "5"; "6"; "7"; "8"].

(** *** Auxiliary facts *)

Lemma dispatch_unknown db choice w :
  choice ∉ CHOICES → dispatch db choice w = (Ok false, w).
Proof.
  intros Hc. unfold dispatch.
  repeat match goal with
         | |- context [String.eqb choice ?c] =>
             destruct (String.eqb_spec choice c) as [->|_];
             [exfalso; apply Hc; unfold CHOICES; set_solver|]
         end.
  done.
Qed.

Lemma bind_run {A B} (m : M A) (k : A → M B) (w : world) :
  (m ≫= k) w
  = match m w with
    | (Ok a, w') => k a w'
    | (Raise e, w') => (Raise e, w')
    end.
Proof. reflexivity. Qed.

Lemma input_run prompt w line rest :
  keyboard w = line :: rest →
  input prompt w = (Ok line, after_prompts w [prompt] rest).
Proof. intros Hkb. unfold input. by rewrite Hkb. Qed.

Lemma menu_turn_unknown db w choice enter rest :
  keyboard w = choice :: enter :: rest →
  strip choice ∉ CHOICES →
  menu_turn db w
  = (Ok true, after_prompts w [CHOICE_PROMPT; CONTINUE_PROMPT] rest).
Proof.
  intros Hkb Hc. rewrite (menu_turn_run _ _ _ _ Hkb).
  rewrite dispatch_unknown by done.
  rewrite (bind_run (input CONTINUE_PROMPT)).
  rewrite (input_run CONTINUE_PROMPT _ enter rest) by done.
  by rewrite after_prompts_again.
Qed.

(** Choice 8 ends the loop at once: no method is called and the pause
    prompt is not shown. *)
Theorem menu_exit db w choice rest :
  keyboard w = choice :: rest →
  strip choice = "8" →
  menu_turn db w = (Ok false, after_prompts w [CHOICE_PROMPT] rest).
Proof.
  intros Hkb Hc. rewrite (menu_turn_run _ _ _ _ Hkb), Hc. reflexivity.
Qed.

Lemma menu_exit_witness :
  let db := modelled_db_utils (λ _, "0.0") (λ _, "") in
  let w := DatabaseUtils.sample_world [" 8 "; "1"] in
  menu_turn db w = (Ok false, after_prompts w [CHOICE_PROMPT] ["1"]).
Proof.
  apply (menu_exit (modelled_db_utils (λ _, "0.0") (λ _, ""))
           (DatabaseUtils.sample_world [" 8 "; "1"]) " 8 " ["1"]);
    reflexivity.
Defined.

(** Turns in which no method of the database is called: a choice that
    is not one of 1 to 8, and a search for which only blanks were typed.
    The turn only shows its prompts, reads its lines and goes on. *)
Theorem menu_turn_without_action db w :
  (∀ choice enter rest,
     keyboard w = choice :: enter :: rest →
     strip choice ∉ CHOICES →
     menu_turn db w
     = (Ok true, after_prompts w [CHOICE_PROMPT; CONTINUE_PROMPT] rest))
  ∧ (∀ choice keyword enter rest,
       keyboard w = choice :: keyword :: enter :: rest →
       strip choice = "3" →
       strip keyword = EmptyString →
       menu_turn db w
       = (Ok true,
          after_prompts w [CHOICE_PROMPT; SEARCH_PROMPT; CONTINUE_PROMPT] rest)).
Proof.
  split.
  - intros choice enter rest. apply menu_turn_unknown.
  - intros choice keyword enter rest Hkb Hc Hblank.
    rewrite (menu_turn_run _ _ _ _ Hkb), Hc.
    change (dispatch db "3") with
      (keyword ← input_stripped SEARCH_PROMPT;
       _ ← (if String.eqb keyword "" then mret ()
            else search_trends db keyword);
       mret false).
    rewrite (bind_run (input_stripped SEARCH_PROMPT)).
    rewrite (input_stripped_run SEARCH_PROMPT _ keyword (enter :: rest)) by done.
    rewrite Hblank. simpl.
    rewrite (bind_run (input CONTINUE_PROMPT)).
    rewrite (input_run CONTINUE_PROMPT _ enter rest) by done.
    by rewrite !after_prompts_again.
Qed.

Lemma menu_turn_without_action_witness :
  let db := modelled_db_utils (λ _, "0.0") (λ _, "") in
  menu_turn db (DatabaseUtils.sample_world ["9"; ""; "8"])
  = (Ok true,
     after_prompts (DatabaseUtils.sample_world ["9"; ""; "8"])
       [CHOICE_PROMPT; CONTINUE_PROMPT] ["8"])
  ∧ menu_turn db (DatabaseUtils.sample_world ["3"; "   "; ""; "8"])
    = (Ok true,
       after_prompts (DatabaseUtils.sample_world ["3"; "   "; ""; "8"])
         [CHOICE_PROMPT; SEARCH_PROMPT; CONTINUE_PROMPT] ["8"]).
Proof.
  split.
  - destruct (menu_turn_without_action
                (modelled_db_utils (λ _, "0.0") (λ _, ""))
                (DatabaseUtils.sample_world ["9"; ""; "8"])) as [Hunknown _].
    apply (Hunknown "9" "" ["8"]); [reflexivity|].
    apply (bool_decide_unpack _). vm_compute. exact I.
  - destruct (menu_turn_without_action
                (modelled_db_utils (λ _, "0.0") (λ _, ""))
                (DatabaseUtils.sample_world ["3"; "   "; ""; "8"])) as [_ Hblank].
    apply (Hblank "3" "   " "" ["8"]); reflexivity.
Defined.

(** The lines typed in a session of turns without effect: each
    unrecognized choice and the line typed at its pause. *)
Fixpoint typed (turns : list (string * string)) (rest : list string)
    : list string :=
  match turns with
  | [] => rest
  | (choice, enter) :: turns' => choice :: enter :: typed turns' rest
  end.

Fixpoint shown (turns : list (string * string)) : list string :=
  match turns with
  | [] => []
  | _ :: turns' => CHOICE_PROMPT :: CONTINUE_PROMPT :: shown turns'
  end.

(** Any number of unrecognized choices followed by choice 8: the loop
    ends after one turn per choice, whatever the methods are, with the
    table, the clock and the files as they were, and the lines typed
    after the 8 unread. *)
Theorem main_loop_ends_on_exit db w turns quit rest fuel :
  keyboard w = typed turns (quit :: rest) →
  Forall (λ t, strip t.1 ∉ CHOICES) turns →
  strip quit = "8" →
  (length turns < fuel)%nat →
  main_loop db fuel w
  = (Ok (Some ()),
     after_prompts w (shown turns ++ [CHOICE_PROMPT]) rest).
Proof.
  intros Hkb Hturns Hquit. revert w fuel Hkb.
  induction Hturns as [|[choice enter] turns Hc _ IH]; intros w fuel Hkb Hfuel.
  - destruct fuel as [|fuel]; [simpl in Hfuel; lia|]. simpl in *.
    unfold mbind, M_bind. by rewrite (menu_turn_run _ _ _ _ Hkb), Hquit.
  - destruct fuel as [|fuel]; [simpl in Hfuel; lia|]. simpl in Hkb, Hfuel.
    cbn [main_loop]. unfold mbind at 1. unfold M_bind at 1.
    rewrite (menu_turn_unknown db w choice enter _ Hkb Hc).
    rewrite IH; [|done|lia].
    rewrite after_prompts_again. simpl. reflexivity.
Qed.

Lemma main_loop_ends_on_exit_witness :
  let db := modelled_db_utils (λ _, "0.0") (λ _, "") in
  let w := DatabaseUtils.sample_world ["x"; ""; "42"; "ok"; "8"; "1"] in
  main_loop db 3 w
  = (Ok (Some ()),
     after_prompts w
       (shown [("x", ""); ("42", "ok")] ++ [CHOICE_PROMPT]) ["1"]).
Proof.
  apply (main_loop_ends_on_exit (modelled_db_utils (λ _, "0.0") (λ _, ""))
           (DatabaseUtils.sample_world ["x"; ""; "42"; "ok"; "8"; "1"])
           [("x", ""); ("42", "ok")] "8" ["1"] 3).
  - reflexivity.
  - repeat constructor; simpl; apply (bool_decide_unpack _); vm_compute; exact I.
  - reflexivity.
  - simpl. lia.
Defined.

End MenuLaws.

(** ** Column texts of the printed tables *)

Module Display.
Import PyStr.

(** [s[:keep] + "..." if len(s) > width else s], the expression that
    fits a keyword (or a category) into its column. *)
Definition ellipsize (width keep : nat) (s : string) : string :=
  if (width <? String.length s)%nat
  then String.substring 0 keep s +:+ "..."
  else s.

(** The columns of [view_recent_trends] and [search_trends] (40), of
    [get_trending_keywords] (45), and of the table printed by [main] of
    the extraction script (keyword 50, category 25). *)
Definition keyword_column_40 : string → string := ellipsize 40 37.
Definition keyword_column_45 : string → string := ellipsize 45 42.
Definition keyword_column_50 : string → string := ellipsize 50 47.
Definition category_column_25 : string → string := ellipsize 25 22.

Lemma length_substring_prefix keep s :
  String.length (String.substring 0 keep s)
  = Nat.min keep (String.length s).
Proof.
  revert s. induction keep as [|keep IH]; intros [|c s]; simpl; try done.
  by rewrite IH.
Qed.

Lemma substring_prefix keep s :
  ∃ rest, s = String.substring 0 keep s +:+ rest.
Proof.
  revert s. induction keep as [|keep IH]; intros [|c s]; simpl.
  - by exists EmptyString.
  - by exists (String c s).
  - by exists EmptyString.
  - destruct (IH s) as [rest Hrest]. exists rest.
    rewrite StrFacts.append_cons. by rewrite <- Hrest.
Qed.

(** A text put into a column is never longer than the column; a text
    that fits is shown unchanged; a longer one is cut to its first
    [keep] characters followed by three dots, and fills the column
    exactly when [keep + 3] is the width, as it is at every use. *)
Theorem ellipsize_fits width keep s :
  (keep + 3 ≤ width)%nat →
  (String.length (ellipsize width keep s) ≤ width)%nat
  ∧ ((String.length s ≤ width)%nat → ellipsize width keep s = s)
  ∧ ((width < String.length s)%nat →
     String.length (ellipsize width keep s) = (keep + 3)%nat
     ∧ ∃ rest, s = String.substring 0 keep s +:+ rest
               ∧ ellipsize width keep s = String.substring 0 keep s +:+ "...").
Proof.
  intros Hk. unfold ellipsize.
  destruct (Nat.ltb_spec width (String.length s)) as [Hlong|Hfit].
  - assert (Hlen : String.length (String.substring 0 keep s +:+ "...")
                   = (keep + 3)%nat).
    { rewrite StrFacts.length_append, length_substring_prefix. simpl. lia. }
    split_and!.
    + lia.
    + lia.
    + intros _. split; [done|].
      destruct (substring_prefix keep s) as [rest Hrest]. by exists rest.
  - split_and!; [done | done | lia].
Qed.

Lemma ellipsize_fits_witness :
  let s := "Ten proven ways to grow your newsletter audience in 2024" in
  (String.length (keyword_column_40 s) ≤ 40)%nat
  ∧ ((String.length s ≤ 40)%nat → keyword_column_40 s = s)
  ∧ ((40 < String.length s)%nat →
     String.length (keyword_column_40 s) = (37 + 3)%nat
     ∧ ∃ rest, s = String.substring 0 37 s +:+ rest
               ∧ keyword_column_40 s = String.substring 0 37 s +:+ "...").
Proof.
  apply (ellipsize_fits 40 37
           "Ten proven ways to grow your newsletter audience in 2024").
  lia.
Defined.

End Display.

(** ** More on [process_trends] and [save_trend] *)

Module ProcessLaws.
Import PyStr Py TrendExtractor.

Section Rows.
Variable generate_content : string → result SentimentAnalyzer.response.







End Rows.



End ProcessLaws.

(** ** The collectors and [extract_trends] *)

Module Collectors.
Import PyStr Py TrendExtractor.

(** *** [GoogleTrendsMonitor.get_trending_topics] *)

(** The frame returned by [interest_over_time]: a number of rows (one
    per point in time) and, per column, its name and its value at each
    row. *)
Record dataframe : Type := {
  n_rows : nat;
  columns : list (string * (nat → Z))
}.

(** [frame.empty] *)
Definition empty (frame : dataframe) : bool :=
  (n_rows frame =? 0)%nat || bool_decide (columns frame = []).

(** [frame[name]], for a name among the columns. *)
Fixpoint column (cols : list (string * (nat → Z))) (name : string)
    : option (nat → Z) :=
  match cols with
  | [] => None
  | (n, series) :: cols' =>
      if String.eqb name n then Some series else column cols' name
  end.

Definition series_values (frame : dataframe) (series : nat → Z) : list Z :=
  series <$> seq 0 (n_rows frame).

(** [int(series.mean())]: the mean of integers, cut towards zero. *)
Definition int_mean (xs : list Z) : Z :=
  Z.quot (foldr Z.add 0%Z xs) (Z.of_nat (length xs)).

(** [int(series.max())] *)
Definition int_max (xs : list Z) : Z :=
  match xs with
  | [] => 0%Z
  | x :: xs' => foldr Z.max x xs'
  end.

(** ['rising' if series.iloc[-1] > series.iloc[0] else 'falling'] *)
Definition trend_direction (xs : list Z) : string :=
  match xs, last xs with
  | first :: _, Some final => if (first <? final)%Z then "rising" else "falling"
  | _, _ => "falling"
  end.

Definition google_record_of (keyword : string) (xs : list Z)
    : gmap string value :=
  list_to_map
    [("keyword", VStr keyword); ("platform", VStr "Google Trends");
     ("volume", VInt (int_mean xs));
     ("metadata",
      VMeta [("max_interest", DatabaseUtils.str_int (int_max xs));
             ("trend_direction", trend_direction xs)])].

(** [range(0, len(keywords), 5)] with [keywords[i:i+5]]. *)
Definition batches (keywords : list string) : list (list string) :=
  (λ j, take 5 (drop (5 * j) keywords))
    <$> seq 0 ((length keywords + 4) / 5).

Section Google.

(** [build_payload] followed by [interest_over_time], for one batch. *)
Variable fetch : list string → result dataframe.

(** The records one batch adds; a batch whose request raises adds none. *)
Definition batch_records (batch : list string) : list (gmap string value) :=
  match fetch batch with
  | Raise _ => []
  | Ok frame =>
      if empty frame then []
      else
        omap (λ keyword,
                series ← column (columns frame) keyword;
                Some (google_record_of keyword (series_values frame series)))
          batch
  end.

Definition google_trending_topics (keywords : list string)
    : list (gmap string value) :=
  concat (batch_records <$> batches keywords).

End Google.

(** *** [RedditMonitor.get_trending_topics] *)

Record post : Type := {
  title : string;
  score : Z;
  num_comments : Z;
  permalink : string;
  upvote_ratio : string
}.

Definition reddit_record_of (subreddit_name : string) (p : post)
    : gmap string value :=
  list_to_map
    [("keyword", VStr (title p)); ("platform", VStr "Reddit");
     ("volume", VInt (score p));
     ("engagement_score", VInt (score p + num_comments p));
     ("metadata",
      VMeta [("subreddit", subreddit_name);
             ("url", "https://reddit.com" +:+ permalink p);
             ("comments", DatabaseUtils.str_int (num_comments p));
             ("upvote_ratio", upvote_ratio p)])].


Section Reddit.

(** [subreddit.hot(limit=limit)]: the posts delivered before the listing
    ends or breaks off with an exception; either way the posts already
    delivered have been appended. *)
Variable hot : string → nat → list post.


End Reddit.

(** *** [TrendExtractor.extract_trends] *)


(** *** Auxiliary facts *)

Ltac record_lookup :=
  unfold google_record_of, reddit_record_of; cbn [list_to_map foldr];
  repeat (first [ rewrite lookup_insert_eq
                | rewrite lookup_insert_ne by done
                | rewrite lookup_empty ]);
  try reflexivity.

Lemma google_record_fields keyword xs :
  google_record_of keyword xs !! "keyword" = Some (VStr keyword)
  ∧ google_record_of keyword xs !! "platform" = Some (VStr "Google Trends")
  ∧ google_record_of keyword xs !! "volume" = Some (VInt (int_mean xs))
  ∧ google_record_of keyword xs !! "engagement_score" = None
  ∧ google_record_of keyword xs !! "sentiment_score" = None.
Proof. split_and!; record_lookup. Qed.


Lemma batches_concat_upto (n : nat) : ∀ keywords : list string,
  (length keywords ≤ 5 * n)%nat →
  concat ((λ j, take 5 (drop (5 * j) keywords)) <$> seq 0 n) = keywords.
Proof.
  induction n as [|n IH]; intros keywords Hlen.
  - destruct keywords; [done | simpl in Hlen; lia].
  - rewrite <- cons_seq, fmap_cons, concat_cons. rewrite <- fmap_S_seq.
    rewrite <- list_fmap_compose.
    replace (5 * 0)%nat with 0%nat by lia. rewrite drop_0.
    transitivity (take 5 keywords ++ drop 5 keywords); [|apply take_drop].
    f_equal.
    rewrite <- (IH (drop 5 keywords)) at 1 by (rewrite length_drop; lia).
    f_equal. apply list_fmap_ext. intros i j _. simpl.
    rewrite drop_drop. do 2 f_equal. lia.
Qed.

Lemma batches_concat keywords : concat (batches keywords) = keywords.
Proof.
  unfold batches. apply batches_concat_upto.
  pose proof (Nat.div_mod (length keywords + 4) 5 ltac:(lia)) as Hdm.
  pose proof (Nat.mod_upper_bound (length keywords + 4) 5 ltac:(lia)). lia.
Qed.

Lemma batches_sizes keywords :
  Forall (λ batch, (1 ≤ length batch ≤ 5)%nat) (batches keywords).
Proof.
  unfold batches. apply Forall_fmap, Forall_forall. intros j Hj. simpl.
  apply elem_of_seq in Hj as [_ Hj]. rewrite length_take, length_drop.
  pose proof (Nat.div_mod (length keywords + 4) 5 ltac:(lia)) as Hdm.
  pose proof (Nat.mod_upper_bound (length keywords + 4) 5 ltac:(lia)). lia.
Qed.

Lemma batch_records_found fetch batch :
  ∃ found,
    Forall2 (λ r k, ∃ xs, r = google_record_of k xs)
      (batch_records fetch batch) found
    ∧ found `sublist_of` batch
    ∧ ((∃ frame, fetch batch = Ok frame ∧ empty frame = false
                 ∧ ∀ k, k ∈ batch → is_Some (column (columns frame) k)) →
       found = batch).
Proof.
  unfold batch_records. destruct (fetch batch) as [frame|e].
  2:{ exists []. split_and!; [constructor | apply sublist_nil_l |].
      intros (frame & Hf & _). discriminate. }
  destruct (empty frame) eqn:Hempty.
  { exists []. split_and!; [constructor | apply sublist_nil_l |].
    intros (frame' & [= <-] & He & _). congruence. }
  induction batch as [|k batch (found & Hrec & Hsub & Hall)]; simpl.
  - exists []. split_and!; [constructor | done | done].
  - destruct (column (columns frame) k) as [series|] eqn:Hcol; simpl.
    + exists (k :: found). split_and!.
      * constructor; [by eexists | done].
      * by apply sublist_skip.
      * intros (frame' & [= <-] & He & Hcols). f_equal. apply Hall.
        exists frame. split_and!; try done. intros k' Hk'. apply Hcols. by right.
    + exists found. split_and!; [done | by apply sublist_cons |].
      intros (frame' & [= <-] & He & Hcols).
      destruct (Hcols k) as [? Hsome]; [left|]. congruence.
Qed.

Lemma batches_found fetch (bs : list (list string)) :
  ∃ found,
    Forall2 (λ r k, ∃ xs, r = google_record_of k xs)
      (concat (batch_records fetch <$> bs)) found
    ∧ found `sublist_of` concat bs
    ∧ ((∀ batch, batch ∈ bs →
          ∃ frame, fetch batch = Ok frame ∧ empty frame = false
                   ∧ ∀ k, k ∈ batch → is_Some (column (columns frame) k)) →
       found = concat bs).
Proof.
  induction bs as [|b bs (found & Hrec & Hsub & Hall)]; simpl.
  - exists []. split_and!; [constructor | done | done].
  - destruct (batch_records_found fetch b) as (fb & Hb & Hsb & Hallb).
    exists (fb ++ found). split_and!.
    + by apply Forall2_app.
    + by apply sublist_app.
    + intros Hok. rewrite Hallb by (apply Hok; left).
      rewrite Hall; [done|]. intros batch Hin. apply Hok. by right.
Qed.

(** The keywords are requested in consecutive batches of at most five,
    none of them empty, that together are the keyword list: every
    keyword is asked for exactly once, in order. *)
Theorem batches_cover keywords :
  concat (batches keywords) = keywords
  ∧ Forall (λ batch, (1 ≤ length batch ≤ 5)%nat) (batches keywords)
  ∧ length (batches keywords) = ((length keywords + 4) / 5)%nat.
Proof.
  split_and!; [apply batches_concat | apply batches_sizes |].
  unfold batches. by rewrite length_fmap, length_seq.
Qed.

(** The records of the search-interest collector, one per keyword found
    as a column of its batch's frame: their keywords are a subsequence
    of the keywords asked for (a batch whose request raises, or whose
    frame is empty, only loses its own keywords); each has a text
    keyword, the platform 'Google Trends' and no [engagement_score];
    and when every batch's request returns a non-empty frame holding all
    its keywords, there is exactly one record per keyword, in order. *)
Theorem google_trending_topics_records fetch keywords :
  ∃ found,
    Forall2 (λ r k, r !! "keyword" = Some (VStr k)
                    ∧ r !! "platform" = Some (VStr "Google Trends")
                    ∧ r !! "engagement_score" = None
                    ∧ ∃ v, r !! "volume" = Some (VInt v))
      (google_trending_topics fetch keywords) found
    ∧ found `sublist_of` keywords
    ∧ ((∀ batch, batch ∈ batches keywords →
          ∃ frame, fetch batch = Ok frame ∧ empty frame = false
                   ∧ ∀ k, k ∈ batch → is_Some (column (columns frame) k)) →
       found = keywords).
Proof.
  destruct (batches_found fetch (batches keywords)) as (found & Hrec & Hsub & Hall).
  rewrite batches_concat in Hsub, Hall.
  exists found. split_and!; [|done|done].
  eapply Forall2_impl; [exact Hrec|].
  intros r k [xs ->].
  destruct (google_record_fields k xs) as (H1 & H2 & H3 & H4 & _).
  split_and!; try done. by eexists.
Qed.

(** A service that answers every batch with a two-row frame holding a
    column per keyword asked. *)
Definition steady_fetch (batch : list string) : result dataframe :=
  Ok {| n_rows := 2;
        columns := (λ k, (k, λ i, (50 + Z.of_nat i)%Z)) <$> batch |}.

Definition MARKETING_KEYWORDS : list string :=
  ["digital marketing"; "social media marketing"; "content marketing";
   "SEO"; "SEM"; "email marketing"; "influencer marketing";
   "brand awareness"; "lead generation"; "conversion rate";
   "marketing automation"; "analytics"; "engagement";
   "viral marketing"; "growth hacking"; "marketing strategy";
   "customer acquisition"; "retention"; "ROI"; "KPI"].

Lemma steady_fetch_column batch k :
  k ∈ batch →
  is_Some (column ((λ k, (k, λ i, (50 + Z.of_nat i)%Z)) <$> batch) k).
Proof.
  induction batch as [|k' batch IH]; simpl.
  - by intros ?%elem_of_nil.
  - intros Hin. destruct (String.eqb_spec k k') as [->|Hne]; [by eexists|].
    apply IH. by apply elem_of_cons in Hin as [?|?].
Qed.

Lemma google_trending_topics_records_witness :
  ∃ found,
    Forall2 (λ r k, r !! "keyword" = Some (VStr k)
                    ∧ r !! "platform" = Some (VStr "Google Trends")
                    ∧ r !! "engagement_score" = None
                    ∧ ∃ v, r !! "volume" = Some (VInt v))
      (google_trending_topics steady_fetch MARKETING_KEYWORDS) found
    ∧ found = MARKETING_KEYWORDS.
Proof.
  destruct (google_trending_topics_records steady_fetch MARKETING_KEYWORDS)
    as (found & Hrec & _ & Hall).
  exists found. split; [exact Hrec|]. apply Hall.
  intros batch Hin. eexists. split; [reflexivity|]. split.
  - pose proof (batches_sizes MARKETING_KEYWORDS) as Hs.
    rewrite Forall_forall in Hs. specialize (Hs batch Hin).
    destruct batch; [simpl in Hs; lia | reflexivity].
  - apply steady_fetch_column.
Defined.





End Collectors.

(** ** More on [get_current_trends_summary] *)

Module SummaryLaws.
Import Py Store TrendSummary.

(** *** Auxiliary facts *)

Lemma sum_Z_perm xs ys : xs ≡ₚ ys → sum_Z xs = sum_Z ys.
Proof.
  unfold sum_Z. induction 1; simpl; lia.
Qed.

Lemma sum_Q_perm xs ys : xs ≡ₚ ys → (sum_Q xs == sum_Q ys)%Q.
Proof.
  unfold sum_Q. induction 1 as [|x xs ys _ IH|x y xs|xs ys zs _ IH1 _ IH2]; simpl.
  - reflexivity.
  - by rewrite IH.
  - ring.
  - by rewrite IH1.
Qed.

(** The total of a quantity over the entries of [keyword_data]. *)
Definition total_Z (f : keyword_entry → Z) (d : list (string * keyword_entry)) : Z :=
  sum_Z ((λ kv, f kv.2) <$> d).

Definition total_Q (f : keyword_entry → Q) (d : list (string * keyword_entry)) : Q :=
  sum_Q ((λ kv, f kv.2) <$> d).

Lemma total_Z_set f d k v :
  total_Z f (PyDict.set k v d)
  = (total_Z f d + f v
     - match PyDict.get d k with Some e => f e | None => 0 end)%Z.
Proof.
  induction d as [|[k0 e0] d IH]; cbn [PyDict.set PyDict.get].
  - unfold total_Z, sum_Z. simpl. lia.
  - destruct (String.eqb_spec k k0) as [->|Hne].
    + unfold total_Z, sum_Z. simpl. lia.
    + change (total_Z f ((k0, e0) :: PyDict.set k v d))
        with (f e0 + total_Z f (PyDict.set k v d))%Z.
      change (total_Z f ((k0, e0) :: d)) with (f e0 + total_Z f d)%Z.
      rewrite IH. lia.
Qed.

Lemma total_Q_set f d k v :
  (total_Q f (PyDict.set k v d)
   == total_Q f d + f v
      - match PyDict.get d k with Some e => f e | None => 0 end)%Q.
Proof.
  induction d as [|[k0 e0] d IH]; cbn [PyDict.set PyDict.get].
  - unfold total_Q, sum_Q. simpl. ring.
  - destruct (String.eqb_spec k k0) as [->|Hne].
    + unfold total_Q, sum_Q. simpl. ring.
    + change (total_Q f ((k0, e0) :: PyDict.set k v d))
        with (f e0 + total_Q f (PyDict.set k v d))%Q.
      change (total_Q f ((k0, e0) :: d)) with (f e0 + total_Q f d)%Q.
      rewrite IH. ring.
Qed.

Lemma length_set {V} (d : list (string * V)) k v :
  length (PyDict.set k v d)
  = match PyDict.get d k with
    | Some _ => length d
    | None => S (length d)
    end.
Proof.
  induction d as [|[k0 e0] d IH]; simpl; [done|].
  destruct (String.eqb_spec k k0) as [->|Hne]; simpl; [done|].
  rewrite IH. by destruct (PyDict.get d k).
Qed.

(** What one turn of the loop adds to the totals. *)
Lemma aggregate_step_totals d t :
  total_Z e_occurrences (aggregate_step d t)
  = (total_Z e_occurrences d + 1)%Z
  ∧ total_Z e_total_volume (aggregate_step d t)
    = (total_Z e_total_volume d + volume t)%Z
  ∧ (total_Q e_total_engagement (aggregate_step d t)
     == total_Q e_total_engagement d + engagement_score t)%Q
  ∧ (length (aggregate_step d t) ≤ S (length d))%nat.
Proof.
  unfold aggregate_step. set (k := keyword t).
  destruct (PyDict.get d k) as [e|] eqn:Hk.
  - rewrite Hk. rewrite !total_Z_set, total_Q_set, length_set, Hk. simpl.
    split_and!; [lia | lia | ring | lia].
  - rewrite PyDict.get_set, String.eqb_refl.
    rewrite !total_Z_set, total_Q_set, !length_set.
    rewrite ?PyDict.get_set, ?String.eqb_refl.
    rewrite ?total_Z_set, ?total_Q_set, Hk. simpl.
    split_and!; [lia | lia | ring | lia].
Qed.

Lemma aggregate_totals trends :
  total_Z e_occurrences (aggregate trends) = Z.of_nat (length trends)
  ∧ total_Z e_total_volume (aggregate trends) = sum_Z (volume <$> trends)
  ∧ (total_Q e_total_engagement (aggregate trends)
     == sum_Q (engagement_score <$> trends))%Q
  ∧ (length (aggregate trends) ≤ length trends)%nat.
Proof.
  unfold aggregate.
  induction trends as [|t trends (Ho & Hv & He & Hl)] using rev_ind.
  - simpl. split_and!; try done.
  - rewrite fold_left_app. simpl.
    destruct (aggregate_step_totals (fold_left aggregate_step trends []) t)
      as (Ho' & Hv' & He' & Hl').
    rewrite Ho', Hv', He', Ho, Hv, He, !fmap_app, length_app. simpl.
    rewrite sum_Z_snoc, sum_Q_snoc. split_and!; [lia | done | reflexivity | lia].
Qed.

(** The summary neither loses nor counts twice: when [top_n] is not
    smaller than the number of observations, the occurrences of the
    rows add up to the number of observations, their total volumes to
    the volume of all observations, and their total engagements to the
    engagement of all observations. *)
Theorem trends_summary_conserves trends top_n :
  (Z.of_nat (length trends) ≤ top_n)%Z →
  let rows := trends_summary trends top_n in
  sum_Z (s_occurrences <$> rows) = Z.of_nat (length trends)
  ∧ sum_Z (s_total_volume <$> rows) = sum_Z (volume <$> trends)
  ∧ (sum_Q (s_total_engagement <$> rows)
     == sum_Q (engagement_score <$> trends))%Q.
Proof.
  intros Hn rows.
  destruct (aggregate_totals trends) as (Ho & Hv & He & Hl).
  assert (Hperm : rows ≡ₚ summarize <$> PyDict.values (aggregate trends)).
  { unfold rows, trends_summary, slice_to.
    rewrite (proj2 (Z.leb_le 0 top_n)) by lia.
    rewrite take_ge.
    - apply DescSort.sort_perm.
    - rewrite (Permutation_length (DescSort.sort_perm _ _ _)).
      unfold PyDict.values. rewrite !length_fmap. lia. }
  assert (Hmap : ∀ {B} (f : summary_row → B) (g : keyword_entry → B),
            (∀ e, f (summarize e) = g e) →
            f <$> (summarize <$> PyDict.values (aggregate trends))
            = (λ kv, g kv.2) <$> aggregate trends).
  { intros B f g Hfg. unfold PyDict.values.
    rewrite <- !list_fmap_compose. apply list_fmap_ext. intros i kv _. apply Hfg. }
  split_and!.
  - rewrite (sum_Z_perm _ _ (fmap_Permutation s_occurrences _ _ Hperm)).
    by rewrite (Hmap _ s_occurrences e_occurrences).
  - rewrite (sum_Z_perm _ _ (fmap_Permutation s_total_volume _ _ Hperm)).
    by rewrite (Hmap _ s_total_volume e_total_volume).
  - rewrite (sum_Q_perm _ _ (fmap_Permutation s_total_engagement _ _ Hperm)).
    by rewrite (Hmap _ s_total_engagement e_total_engagement).
Qed.

Lemma trends_summary_conserves_witness :
  let trends := [DatabaseUtils.row_today; DatabaseUtils.row_old;
                 DatabaseUtils.row_today] in
  let rows := trends_summary trends 20 in
  sum_Z (s_occurrences <$> rows) = Z.of_nat (length trends)
  ∧ sum_Z (s_total_volume <$> rows) = sum_Z (volume <$> trends)
  ∧ (sum_Q (s_total_engagement <$> rows)
     == sum_Q (engagement_score <$> trends))%Q.
Proof.
  apply (trends_summary_conserves
           [DatabaseUtils.row_today; DatabaseUtils.row_old;
            DatabaseUtils.row_today] 20).
  simpl. lia.
Defined.

End SummaryLaws.

(** ** [DatabaseUtils.search_trends] *)

Module Search.
Import PyStr Py Store.

(** SQLite's [LIKE] with its defaults: [%] stands for any run of
    characters, [_] for any one character, no escape character, and
    letters A to Z match without regard to case. *)
Fixpoint like (pattern text : string) {struct pattern} : bool :=
  match pattern with
  | EmptyString =>
      match text with
      | EmptyString => true
      | String _ _ => false
      end
  | String c pattern' =>
      if Ascii.eqb c "%" then
        (fix from (text : string) : bool :=
           like pattern' text
           || match text with
              | EmptyString => false
              | String _ text' => from text'
              end) text
      else
        match text with
        | EmptyString => false
        | String d text' =>
            (Ascii.eqb c "_" || Ascii.eqb (lower_char c) (lower_char d))
            && like pattern' text'
        end
  end.

(** The engine compares the pattern and the text as C strings, that is
    up to their first NUL character. *)
Definition NUL : ascii := ascii_of_nat 0.

Fixpoint c_str (s : string) : string :=
  match s with
  | EmptyString => EmptyString
  | String c s' => if Ascii.eqb c NUL then EmptyString else String c (c_str s')
  end.

(** The bytes of a text in UTF-8: one for a character below 128, two for
    the others up to 255. *)
Fixpoint utf8_length (s : string) : nat :=
  match s with
  | EmptyString => 0
  | String c s' =>
      ((if (nat_of_ascii c <? 128)%nat then 1 else 2) + utf8_length s')%nat
  end.

(** The engine refuses a pattern of more than 50000 bytes when it
    evaluates [LIKE] on a row: [sqlite3.OperationalError], an error of
    the database library. *)
Definition MAX_LIKE_PATTERN_LENGTH : Z := 50000.
Definition OperationalError : exn := ExternalError.

(** The [SELECT ... WHERE keyword LIKE ? ORDER BY timestamp DESC] of
    [search_trends], with the parameter ['%' + keyword + '%']. *)
Definition search_rows (keyword_in : string) (table : list trend)
    : result (list trend) :=
  let pattern := "%" +:+ keyword_in +:+ "%" in
  match table with
  | [] => Ok []
  | _ :: _ =>
      if (MAX_LIKE_PATTERN_LENGTH <? Z.of_nat (utf8_length pattern))%Z
      then Raise OperationalError
      else Ok (DescSort.sort timestamp datetime_leb
                 (List.filter
                    (λ r, like (c_str pattern) (c_str (keyword r))) table))
  end.

(** The rows fetched, which the method then prints (or reports that
    nothing was found). *)
Definition search_trends (keyword_in : string) : M (list trend) :=
  table ← select_trends;
  lift (search_rows keyword_in table).

(** A text without the two wildcard characters and without NUL. *)
Fixpoint plain (s : string) : bool :=
  match s with
  | EmptyString => true
  | String c s' =>
      negb (Ascii.eqb c "%") && negb (Ascii.eqb c "_")
      && negb (Ascii.eqb c NUL) && plain s'
  end.

(** *** Auxiliary facts *)

Lemma like_percent pattern text :
  like (String "%" pattern) text = true
  ↔ ∃ pre suf, text = pre +:+ suf ∧ like pattern suf = true.
Proof.
  cbn [like]. rewrite Ascii.eqb_refl.
  induction text as [|d text IH].
  - rewrite orb_false_r. split.
    + intros H. by exists EmptyString, EmptyString.
    + intros (pre & suf & Heq & H). destruct pre as [|c pre].
      * rewrite StrFacts.append_nil_l in Heq. by subst suf.
      * by rewrite StrFacts.append_cons in Heq.
  - rewrite orb_true_iff, IH. split.
    + intros [H|(pre & suf & -> & H)].
      * by exists EmptyString, (String d text).
      * by exists (String d pre), suf.
    + intros (pre & suf & Heq & H). destruct pre as [|c pre].
      * left. rewrite StrFacts.append_nil_l in Heq. by subst suf.
      * right. rewrite StrFacts.append_cons in Heq.
        injection Heq as -> ->. by exists pre, suf.
Qed.

Lemma like_only_percent text : like "%" text = true.
Proof.
  apply like_percent. exists text, EmptyString.
  by rewrite StrFacts.append_nil_r.
Qed.

Lemma like_plain_prefix keyword_in : ∀ text,
  plain keyword_in = true →
  like (keyword_in +:+ "%") text = startswith (lower keyword_in) (lower text).
Proof.
  induction keyword_in as [|c k IH]; intros text Hp.
  - change (EmptyString +:+ "%") with "%". rewrite like_only_percent.
    by destruct text.
  - simpl in Hp. apply andb_true_iff in Hp as [Hc Hk].
    apply andb_true_iff in Hc as [Hc _].
    apply andb_true_iff in Hc as [Hc1 Hc2].
    apply negb_true_iff in Hc1, Hc2.
    rewrite StrFacts.append_cons. cbn [like]. rewrite Hc1.
    destruct text as [|d text]; [done|]. rewrite Hc2. simpl.
    by rewrite IH.
Qed.

Lemma lower_split s : ∀ a b,
  lower s = a +:+ b → ∃ s1 s2, s = s1 +:+ s2 ∧ lower s1 = a ∧ lower s2 = b.
Proof.
  induction s as [|c s IH]; intros a b Heq.
  - destruct a as [|x a]; [|by rewrite StrFacts.append_cons in Heq].
    rewrite StrFacts.append_nil_l in Heq. subst b.
    by exists EmptyString, EmptyString.
  - destruct a as [|x a].
    + rewrite StrFacts.append_nil_l in Heq. subst b.
      by exists EmptyString, (String c s).
    + rewrite StrFacts.append_cons in Heq. simpl in Heq.
      injection Heq as Hx Heq. destruct (IH a b Heq) as (s1 & s2 & -> & <- & <-).
      exists (String c s1), s2. simpl. by rewrite Hx.
Qed.

Lemma like_contains keyword_in text :
  plain keyword_in = true →
  like ("%" +:+ keyword_in +:+ "%") text = true ↔ contains_ci keyword_in text.
Proof.
  intros Hp. change ("%" +:+ keyword_in +:+ "%")
    with (String "%" (keyword_in +:+ "%")).
  rewrite like_percent. unfold contains_ci, substring_of. split.
  - intros (pre & suf & -> & H). rewrite like_plain_prefix in H by done.
    apply startswith_spec in H as [post Hpost].
    exists (lower pre), post. by rewrite CategorizerLaws.lower_app, Hpost.
  - intros (a & post & Heq).
    destruct (lower_split text a (lower keyword_in +:+ post) Heq)
      as (s1 & s2 & -> & _ & Hs2).
    exists s1, s2. split; [done|]. rewrite like_plain_prefix by done.
    apply startswith_spec. by exists post.
Qed.

Lemma like_plain_then keyword_in rest : ∀ text,
  plain keyword_in = true →
  like (keyword_in +:+ rest) text = true
  ↔ ∃ t1 t2, text = t1 +:+ t2 ∧ lower t1 = lower keyword_in
             ∧ like rest t2 = true.
Proof.
  induction keyword_in as [|c k IH]; intros text Hp.
  - rewrite StrFacts.append_nil_l. split.
    + intros H. by exists EmptyString, text.
    + intros (t1 & t2 & -> & Ht1 & H). by destruct t1.
  - simpl in Hp. apply andb_true_iff in Hp as [Hc Hk].
    apply andb_true_iff in Hc as [Hc _].
    apply andb_true_iff in Hc as [Hc1 Hc2].
    apply negb_true_iff in Hc1, Hc2.
    rewrite StrFacts.append_cons. cbn [like]. rewrite Hc1.
    destruct text as [|d text].
    + split; [done|]. intros (t1 & t2 & Heq & Ht1 & _).
      destruct t1; [done|]. by rewrite StrFacts.append_cons in Heq.
    + rewrite Hc2. cbn [orb]. rewrite andb_true_iff, Ascii.eqb_eq, (IH text Hk).
      split.
      * intros (Hcd & t1 & t2 & -> & Ht1 & H).
        exists (String d t1), t2. simpl. by rewrite Hcd, Ht1.
      * intros (t1 & t2 & Heq & Ht1 & H). destruct t1 as [|x t1]; [done|].
        rewrite StrFacts.append_cons in Heq. injection Heq as <- ->.
        simpl in Ht1. injection Ht1 as Hcd Ht1.
        split; [done|]. by exists t1, t2.
Qed.

Lemma like_two_parts k1 k2 text :
  plain k1 = true → plain k2 = true →
  like ("%" +:+ (k1 +:+ "%" +:+ k2) +:+ "%") text = true
  ↔ ∃ pre rest, lower text = pre +:+ lower k1 +:+ rest
                ∧ substring_of (lower k2) rest.
Proof.
  intros Hp1 Hp2.
  change ("%" +:+ (k1 +:+ "%" +:+ k2) +:+ "%")
    with (String "%" ((k1 +:+ "%" +:+ k2) +:+ "%")).
  rewrite StrFacts.append_assoc.
  change (("%" +:+ k2) +:+ "%") with ("%" +:+ k2 +:+ "%").
  rewrite like_percent. split.
  - intros (pre & suf & -> & H).
    apply like_plain_then in H as (t1 & t2 & -> & Ht1 & H); [|done].
    apply like_contains in H; [|done].
    exists (lower pre), (lower t2).
    by rewrite !CategorizerLaws.lower_app, Ht1.
  - intros (a & rest & Heq & Hsub).
    destruct (lower_split text a (lower k1 +:+ rest) Heq)
      as (s1 & s2 & -> & _ & Hs2).
    destruct (lower_split s2 (lower k1) rest Hs2) as (t1 & t2 & -> & Ht1 & Ht2).
    exists s1, (t1 +:+ t2). split; [done|].
    apply like_plain_then; [done|]. exists t1, t2. split_and!; [done..|].
    apply like_contains; [done|]. unfold contains_ci. by rewrite Ht2.
Qed.

Lemma c_str_app_plain a b :
  plain a = true → c_str (a +:+ b) = a +:+ c_str b.
Proof.
  induction a as [|c a IH]; [done|]. simpl.
  intros [[_ Hc]%andb_true_iff Ha]%andb_true_iff.
  apply negb_true_iff in Hc. rewrite Hc. by rewrite IH.
Qed.

Lemma c_str_pattern keyword_in :
  plain keyword_in = true →
  c_str ("%" +:+ keyword_in +:+ "%") = "%" +:+ keyword_in +:+ "%".
Proof.
  intros Hp. change ("%" +:+ keyword_in +:+ "%")
    with (String "%" (keyword_in +:+ "%")).
  change (c_str (String "%" ?x)) with (String "%" (c_str x)).
  by rewrite c_str_app_plain.
Qed.

Lemma plain_app a b : plain (a +:+ b) = plain a && plain b.
Proof.
  induction a as [|c a IH]; [done|].
  rewrite StrFacts.append_cons. simpl. by rewrite IH, !andb_assoc.
Qed.

Lemma datetime_leb_total a b :
  datetime_leb a b = false → datetime_leb b a = true.
Proof. unfold datetime_leb. intros H. lia. Qed.

Lemma datetime_leb_not_earlier a b :
  datetime_leb b a = true → ¬ earlier a b.
Proof. unfold datetime_leb, earlier. intros H. lia. Qed.

Lemma search_rows_ok keyword_in table :
  plain keyword_in = true →
  (Z.of_nat (utf8_length ("%" +:+ keyword_in +:+ "%"))
   ≤ MAX_LIKE_PATTERN_LENGTH)%Z →
  search_rows keyword_in table
  = Ok (DescSort.sort timestamp datetime_leb
          (List.filter
             (λ r, like ("%" +:+ keyword_in +:+ "%") (c_str (keyword r)))
             table)).
Proof.
  intros Hp Hlen. unfold search_rows. rewrite c_str_pattern by done.
  destruct table as [|r table]; [done|].
  by rewrite (proj2 (Z.ltb_ge _ _) Hlen).
Qed.

Lemma search_rows_newest_first keyword_in table rows :
  search_rows keyword_in table = Ok rows →
  Sorted (λ a b, ¬ earlier (timestamp a) (timestamp b)) rows.
Proof.
  unfold search_rows. destruct table as [|r table].
  - intros [= <-]. constructor.
  - destruct (_ <? _)%Z; [done|]. intros [= <-].
    eapply DescSort.Sorted_weaken;
      [|apply DescSort.sort_sorted, datetime_leb_total].
    intros a b Hd. by apply datetime_leb_not_earlier.
Qed.

Lemma filter_ext_perm {A} (f g : A → bool) (l : list A) :
  (∀ x, f x = g x) → List.filter f l = List.filter g l.
Proof. intros H. induction l as [|x l IH]; simpl; by rewrite ?H, ?IH. Qed.

(** *** What a search finds *)

(** A search text without [%], [_] and NUL, short enough for the
    engine, finds exactly the rows whose keyword (up to a NUL, if it has
    one) contains it without regard to the case of letters, each as
    often as the table holds it, newest first; the table is left as it
    was. *)
Theorem search_trends_finds_substring keyword_in w :
  plain keyword_in = true →
  (Z.of_nat (utf8_length ("%" +:+ keyword_in +:+ "%"))
   ≤ MAX_LIKE_PATTERN_LENGTH)%Z →
  ∃ rows,
    search_trends keyword_in w = (Ok rows, w)
    ∧ rows ≡ₚ List.filter
                (λ r, bool_decide (contains_ci keyword_in (c_str (keyword r))))
                (trends w)
    ∧ Sorted (λ a b, ¬ earlier (timestamp a) (timestamp b)) rows.
Proof.
  intros Hp Hlen.
  pose proof (search_rows_ok keyword_in (trends w) Hp Hlen) as Hrows.
  eexists. split_and!.
  - unfold search_trends, select_trends, mbind, M_bind, lift.
    by rewrite Hrows.
  - rewrite DescSort.sort_perm.
    rewrite (filter_ext_perm _
               (λ r, bool_decide (contains_ci keyword_in (c_str (keyword r)))));
      [done|].
    intros r. destruct (like _ (c_str (keyword r))) eqn:Hl.
    + symmetry. apply bool_decide_eq_true. by apply like_contains.
    + symmetry. apply bool_decide_eq_false. intros Hc.
      apply like_contains in Hc; [|done]. congruence.
  - by apply (search_rows_newest_first keyword_in (trends w)).
Qed.

Lemma search_trends_finds_substring_witness :
  ∃ rows,
    search_trends "O" (DatabaseUtils.sample_world [])
    = (Ok rows, DatabaseUtils.sample_world [])
    ∧ rows ≡ₚ List.filter
                (λ r, bool_decide (contains_ci "O" (c_str (keyword r))))
                (trends (DatabaseUtils.sample_world []))
    ∧ Sorted (λ a b, ¬ earlier (timestamp a) (timestamp b)) rows.
Proof.
  apply (search_trends_finds_substring "O" (DatabaseUtils.sample_world []));
    [reflexivity | by vm_compute].
Defined.

(** The search text goes into the pattern as typed: a [%] in it is a
    wildcard.  A text made of two parts around one [%] finds the rows
    whose keyword contains the first part and, somewhere after it, the
    second. *)
Theorem search_trends_wildcard k1 k2 w :
  plain k1 = true → plain k2 = true →
  (Z.of_nat (utf8_length ("%" +:+ (k1 +:+ "%" +:+ k2) +:+ "%"))
   ≤ MAX_LIKE_PATTERN_LENGTH)%Z →
  ∃ rows,
    search_trends (k1 +:+ "%" +:+ k2) w = (Ok rows, w)
    ∧ ∀ r, r ∈ rows
           ↔ r ∈ trends w
             ∧ ∃ pre rest,
                 lower (c_str (keyword r)) = pre +:+ lower k1 +:+ rest
                 ∧ substring_of (lower k2) rest.
Proof.
  intros Hp1 Hp2 Hlen.
  assert (Hrows : search_rows (k1 +:+ "%" +:+ k2) (trends w)
                  = Ok (DescSort.sort timestamp datetime_leb
                          (List.filter
                             (λ r, like ("%" +:+ (k1 +:+ "%" +:+ k2) +:+ "%")
                                     (c_str (keyword r)))
                             (trends w)))).
  { unfold search_rows.
    assert (Hc : c_str ("%" +:+ (k1 +:+ "%" +:+ k2) +:+ "%")
                 = "%" +:+ (k1 +:+ "%" +:+ k2) +:+ "%").
    { change ("%" +:+ (k1 +:+ "%" +:+ k2) +:+ "%")
        with (String "%" ((k1 +:+ String "%" k2) +:+ "%")).
      change (c_str (String "%" ?x)) with (String "%" (c_str x)).
      rewrite StrFacts.append_assoc, c_str_app_plain by done.
      rewrite StrFacts.append_cons.
      change (c_str (String "%" ?x)) with (String "%" (c_str x)).
      by rewrite c_str_app_plain. }
    rewrite Hc. destruct (trends w) as [|r table]; [done|].
    by rewrite (proj2 (Z.ltb_ge _ _) Hlen). }
  eexists. split.
  - unfold search_trends, select_trends, mbind, M_bind, lift.
    by rewrite Hrows.
  - intros r. rewrite DescSort.sort_perm.
    rewrite list_elem_of_In, List.filter_In, <- list_elem_of_In.
    by rewrite like_two_parts.
Qed.

Lemma search_trends_wildcard_witness :
  ∃ rows,
    search_trends ("b" +:+ "%" +:+ "ideas") (DatabaseUtils.sample_world [])
    = (Ok rows, DatabaseUtils.sample_world [])
    ∧ ∀ r, r ∈ rows
           ↔ r ∈ trends (DatabaseUtils.sample_world [])
             ∧ ∃ pre rest,
                 lower (c_str (keyword r)) = pre +:+ lower "b" +:+ rest
                 ∧ substring_of (lower "ideas") rest.
Proof.
  apply (search_trends_wildcard "b" "ideas" (DatabaseUtils.sample_world []));
    [reflexivity | reflexivity | by vm_compute].
Defined.

(** A search text that makes the pattern longer than the engine allows
    raises the engine's error as soon as the table holds a row; on an
    empty table nothing is found and nothing is raised. *)
Theorem search_trends_pattern_too_long keyword_in w :
  (MAX_LIKE_PATTERN_LENGTH
   < Z.of_nat (utf8_length ("%" +:+ keyword_in +:+ "%")))%Z →
  search_trends keyword_in w
  = (match trends w with
     | [] => Ok []
     | _ :: _ => Raise OperationalError
     end, w).
Proof.
  intros Hlen.
  unfold search_trends, select_trends, mbind, M_bind, lift, search_rows.
  destruct (trends w) as [|r table]; [done|].
  by rewrite (proj2 (Z.ltb_lt _ _) Hlen).
Qed.

Lemma search_trends_pattern_too_long_witness :
  search_trends (String.concat "" (replicate (Z.to_nat 49999) "a"))
    (DatabaseUtils.sample_world [])
  = (Raise OperationalError, DatabaseUtils.sample_world []).
Proof.
  apply (search_trends_pattern_too_long
           (String.concat "" (replicate (Z.to_nat 49999) "a"))
           (DatabaseUtils.sample_world [])).
  by vm_compute.
Defined.

End Search.

(** ** [DatabaseUtils.get_statistics] and [get_trending_keywords] *)

Module Statistics.
Import PyStr Py Store DatabaseUtils.

(** [GROUP BY key]: the rows with equal key form one group.  SQL leaves
    the order of the groups open; here a group stands where its first
    row stood, and nothing below depends on that choice. *)
Section Grouping.
Context {A : Type} (key : A → string).

Definition group_step (d : list (string * list A)) (r : A)
    : list (string * list A) :=
  PyDict.set (key r) (default [] (PyDict.get d (key r)) ++ [r]) d.

Definition group_by (rows : list A) : list (string * list A) :=
  fold_left group_step rows [].

(** The rows with key [k], in table order. *)
Definition with_key (k : string) (rows : list A) : list A :=
  List.filter (λ r, String.eqb (key r) k) rows.

End Grouping.

(** [COUNT( * )] of a group. *)
Definition count_of {A} (g : string * list A) : string * Z :=
  (g.1, Z.of_nat (length g.2)).

Definition sum_Z (xs : list Z) : Z := foldr Z.add 0%Z xs.
Definition sum_Q (xs : list Q) : Q := foldr Qplus 0%Q xs.

(** [AVG(x)]: [NULL] over no rows. *)
Definition sql_avg (xs : list Q) : option Q :=
  match xs with
  | [] => None
  | _ :: _ => Some (sum_Q xs / inject_Z (Z.of_nat (length xs)))%Q
  end.

(** [MIN(timestamp)] and [MAX(timestamp)]: [NULL] over no rows. *)
Fixpoint sql_min (ts : list datetime) : option datetime :=
  match ts with
  | [] => None
  | t :: ts' =>
      match sql_min ts' with
      | None => Some t
      | Some m => Some (if datetime_leb t m then t else m)
      end
  end.

Fixpoint sql_max (ts : list datetime) : option datetime :=
  match ts with
  | [] => None
  | t :: ts' =>
      match sql_max ts' with
      | None => Some t
      | Some m => Some (if datetime_leb m t then t else m)
      end
  end.

(** What [get_statistics] reads from the store and then prints. *)
Record statistics : Type := {
  total_trends : Z;
  platform_stats : list (string * Z);
  category_stats : list (string * Z);
  avg_sentiment : Q;
  date_range : option datetime * option datetime
}.

Definition statistics_of (table : list trend) : statistics :=
  {| total_trends := Z.of_nat (length table);
     platform_stats := count_of <$> group_by platform table;
     category_stats :=
       DescSort.sort snd Z.leb (count_of <$> group_by category table);
     (* [fetchone()[0] or 0] *)
     avg_sentiment := default 0%Q (sql_avg (sentiment_score <$> table));
     date_range := (sql_min (timestamp <$> table),
                    sql_max (timestamp <$> table)) |}.

Definition get_statistics : M statistics :=
  table ← select_trends;
  mret (statistics_of table).

(** One row of [get_trending_keywords]. *)
Record keyword_row : Type := {
  kw : string;
  frequency : Z;
  avg_volume : Q;
  kw_avg_sentiment : Q
}.

Definition keyword_row_of (g : string * list trend) : keyword_row :=
  {| kw := g.1;
     frequency := Z.of_nat (length g.2);
     avg_volume := default 0%Q (sql_avg ((λ r, inject_Z (volume r)) <$> g.2));
     kw_avg_sentiment := default 0%Q (sql_avg (sentiment_score <$> g.2)) |}.

(** [ORDER BY frequency DESC, avg_volume DESC] *)
Definition order_key (row : keyword_row) : Z * Q := (frequency row, avg_volume row).

Definition order_leb (a b : Z * Q) : bool :=
  (a.1 <? b.1)%Z || ((a.1 =? b.1)%Z && Qle_bool a.2 b.2).

Definition trending_rows (threshold top_n : Z) (table : list trend)
    : list keyword_row :=
  sql_limit top_n
    (DescSort.sort order_key order_leb
       (keyword_row_of
          <$> group_by keyword
                (List.filter (λ r, (threshold <=? DATE (timestamp r))%Z) table))).

Definition get_trending_keywords (days top_n : Z) : M (list keyword_row) :=
  t ← now;
  date_threshold ← lift (date_threshold t days);
  table ← select_trends;
  mret (trending_rows date_threshold top_n table).

(** *** Auxiliary facts *)

Section GroupingFacts.
Context {A : Type} (key : A → string).

Lemma group_by_snoc rows r :
  group_by key (rows ++ [r]) = group_step key (group_by key rows) r.
Proof. unfold group_by. by rewrite fold_left_app. Qed.

Lemma with_key_snoc k rows r :
  with_key key k (rows ++ [r])
  = with_key key k rows ++ (if String.eqb (key r) k then [r] else []).
Proof.
  unfold with_key. rewrite List.filter_app. simpl.
  by destruct (String.eqb (key r) k).
Qed.

Lemma get_group_by rows k :
  PyDict.get (group_by key rows) k
  = match with_key key k rows with
    | [] => None
    | g => Some g
    end.
Proof.
  induction rows as [|r rows IH] using rev_ind; [done|].
  rewrite group_by_snoc, with_key_snoc. unfold group_step.
  rewrite PyDict.get_set.
  destruct (String.eqb_spec k (key r)) as [->|Hne].
  - rewrite String.eqb_refl, IH.
    by destruct (with_key key (key r) rows).
  - destruct (String.eqb_spec (key r) k) as [Heq|_]; [by subst|].
    by rewrite app_nil_r.
Qed.

Lemma group_by_NoDup rows : NoDup (PyDict.keys (group_by key rows)).
Proof.
  induction rows as [|r rows IH] using rev_ind; [constructor|].
  rewrite group_by_snoc. unfold group_step. rewrite PyDict.keys_set.
  destruct (PyDict.get (group_by key rows) (key r)) eqn:Hg; [done|].
  apply NoDup_app. split_and!; [done| |apply NoDup_singleton].
  intros x Hx Hx'. apply list_elem_of_singleton in Hx' as ->.
  by apply PyDict.get_None in Hg.
Qed.

Lemma elem_of_group_by rows k g :
  (k, g) ∈ group_by key rows ↔ g = with_key key k rows ∧ g ≠ [].
Proof.
  split.
  - intros Hin. apply PyDict.get_lookup in Hin; [|apply group_by_NoDup].
    rewrite get_group_by in Hin.
    destruct (with_key key k rows); [done|]. by injection Hin as <-.
  - intros [-> Hne]. apply PyDict.elem_of_get. rewrite get_group_by.
    by destruct (with_key key k rows).
Qed.

(** The rows over all groups. *)
Definition group_total (d : list (string * list A)) : nat :=
  foldr (λ g n, (length g.2 + n)%nat) 0%nat d.

Lemma group_total_set d k v :
  (group_total (PyDict.set k v d)
   + match PyDict.get d k with Some e => length e | None => 0 end
   = group_total d + length v)%nat.
Proof.
  induction d as [|[k0 e0] d IH]; cbn [PyDict.set PyDict.get].
  - simpl. lia.
  - destruct (String.eqb_spec k k0) as [->|Hne]; simpl in *; lia.
Qed.

Lemma group_total_group_by rows :
  group_total (group_by key rows) = length rows.
Proof.
  induction rows as [|r rows IH] using rev_ind; [done|].
  rewrite group_by_snoc, length_app. unfold group_step.
  pose proof (group_total_set (group_by key rows) (key r)
                (default [] (PyDict.get (group_by key rows) (key r)) ++ [r]))
    as Hset.
  rewrite length_app in Hset. simpl in *.
  destruct (PyDict.get (group_by key rows) (key r)); simpl in *; lia.
Qed.

Lemma sum_counts rows :
  sum_Z (snd <$> (count_of <$> group_by key rows)) = Z.of_nat (length rows).
Proof.
  rewrite <- group_total_group_by.
  induction (group_by key rows) as [|[k g] d IH]; [done|].
  change (sum_Z (snd <$> (count_of <$> (k, g) :: d)))
    with (Z.of_nat (length g) + sum_Z (snd <$> (count_of <$> d)))%Z.
  rewrite IH. simpl. lia.
Qed.

Lemma fst_count_of (d : list (string * list A)) :
  fst <$> (count_of <$> d) = PyDict.keys d.
Proof. unfold PyDict.keys. rewrite <- list_fmap_compose. by apply list_fmap_ext. Qed.

End GroupingFacts.

Lemma sum_counts_perm xs ys : xs ≡ₚ ys → sum_Z xs = sum_Z ys.
Proof. unfold sum_Z. induction 1; simpl; lia. Qed.


Lemma Z_leb_total a b : (a <=? b)%Z = false → (b <=? a)%Z = true.
Proof. lia. Qed.

Lemma Sorted_take {A} (R : A → A → Prop) (l : list A) n :
  Sorted R l → Sorted R (take n l).
Proof.
  revert n. induction l as [|x l IH]; intros n Hs; [by destruct n|].
  destruct n as [|n]; [constructor|]. simpl.
  apply Sorted_inv in Hs as [Hs Hd]. constructor; [by apply IH|].
  destruct Hd as [|y l Hxy]; [by destruct n|].
  destruct n; constructor. done.
Qed.


Lemma sql_min_spec ts :
  match sql_min ts with
  | None => ts = []
  | Some m => m ∈ ts ∧ Forall (λ t, datetime_leb m t = true) ts
  end.
Proof.
  induction ts as [|t ts IH]; [done|]. simpl.
  destruct (sql_min ts) as [m|].
  - destruct IH as [Hin Hall]. destruct (datetime_leb t m) eqn:Htm.
    + split; [left|]. constructor.
      * unfold datetime_leb. lia.
      * eapply Forall_impl; [exact Hall|]. simpl. intros x Hx.
        unfold datetime_leb in *. lia.
    + split; [by right|]. constructor; [|done].
      by apply Search.datetime_leb_total.
  - subst ts. split; [left|]. repeat constructor. unfold datetime_leb. lia.
Qed.

Lemma sql_max_spec ts :
  match sql_max ts with
  | None => ts = []
  | Some m => m ∈ ts ∧ Forall (λ t, datetime_leb t m = true) ts
  end.
Proof.
  induction ts as [|t ts IH]; [done|]. simpl.
  destruct (sql_max ts) as [m|].
  - destruct IH as [Hin Hall]. destruct (datetime_leb m t) eqn:Htm.
    + split; [left|]. constructor.
      * unfold datetime_leb. lia.
      * eapply Forall_impl; [exact Hall|]. simpl. intros x Hx.
        unfold datetime_leb in *. lia.
    + split; [by right|]. constructor; [|done].
      by apply Search.datetime_leb_total.
  - subst ts. split; [left|]. repeat constructor. unfold datetime_leb. lia.
Qed.

Lemma sql_avg_total xs :
  xs ≠ [] →
  (default 0 (sql_avg xs) * inject_Z (Z.of_nat (length xs)) == sum_Q xs)%Q.
Proof.
  intros Hne. destruct xs as [|x xs]; [done|].
  cbn [sql_avg default]. rewrite Qmult_comm. apply Qmult_div_r.
  intros H0. unfold Qeq in H0. simpl in H0. lia.
Qed.



(** *** The counts of [get_statistics] *)

(** The statistics change nothing.  Every platform with at least one row
    is listed once with the number of its rows, and no other; the same
    holds for the categories, which come in order of falling count; and
    both lists of counts add up to the total. *)
Theorem get_statistics_counts w :
  ∃ s,
    get_statistics w = (Ok s, w)
    ∧ total_trends s = Z.of_nat (length (trends w))
    ∧ sum_Z (snd <$> platform_stats s) = total_trends s
    ∧ sum_Z (snd <$> category_stats s) = total_trends s
    ∧ NoDup (fst <$> platform_stats s)
    ∧ NoDup (fst <$> category_stats s)
    ∧ (∀ p n, (p, n) ∈ platform_stats s
              ↔ n = Z.of_nat (length (with_key platform p (trends w)))
                ∧ (0 < n)%Z)
    ∧ (∀ c n, (c, n) ∈ category_stats s
              ↔ n = Z.of_nat (length (with_key category c (trends w)))
                ∧ (0 < n)%Z)
    ∧ Sorted (λ a b, (b.2 ≤ a.2)%Z) (category_stats s).
Proof.
  assert (Hcount : ∀ (key : trend → string) k n,
            (k, n) ∈ count_of <$> group_by key (trends w)
            ↔ n = Z.of_nat (length (with_key key k (trends w))) ∧ (0 < n)%Z).
  { intros key k n. rewrite list_elem_of_fmap. split.
    - intros ([k' g] & [= -> ->] & Hin). simpl.
      apply elem_of_group_by in Hin as [-> Hne]. split; [done|].
      destruct (with_key key k' (trends w)); [done|]. simpl. lia.
    - intros [-> Hpos]. exists (k, with_key key k (trends w)). split; [done|].
      apply elem_of_group_by. split; [done|]. intros Hnil.
      rewrite Hnil in Hpos. simpl in Hpos. lia. }
  exists (statistics_of (trends w)). split_and!; cbn [statistics_of
    total_trends platform_stats category_stats].
  - done.
  - done.
  - apply sum_counts.
  - rewrite <- (sum_counts category (trends w)). apply sum_counts_perm.
    apply fmap_Permutation, DescSort.sort_perm.
  - rewrite fst_count_of. apply group_by_NoDup.
  - rewrite (DescSort.sort_perm snd Z.leb), fst_count_of.
    apply group_by_NoDup.
  - apply Hcount.
  - intros c n. rewrite (DescSort.sort_perm snd Z.leb). apply Hcount.
  - eapply DescSort.Sorted_weaken;
      [|apply DescSort.sort_sorted, Z_leb_total].
    intros a b Hd. unfold DescSort.desc in Hd. lia.
Qed.

(** On an empty table the average sentiment shown is 0 and there is no
    date range; otherwise the range runs from a stored timestamp that no
    row precedes to one that no row follows, and the average times the
    number of rows is the sum of the sentiment scores. *)
Theorem get_statistics_range_and_average w :
  ∃ s,
    get_statistics w = (Ok s, w)
    ∧ match trends w with
      | [] => avg_sentiment s = 0%Q ∧ date_range s = (None, None)
      | _ :: _ =>
          (∃ lo hi,
             date_range s = (Some lo, Some hi)
             ∧ lo ∈ timestamp <$> trends w
             ∧ hi ∈ timestamp <$> trends w
             ∧ Forall (λ r, ¬ earlier (timestamp r) lo
                            ∧ ¬ earlier hi (timestamp r)) (trends w))
          ∧ (avg_sentiment s * inject_Z (Z.of_nat (length (trends w)))
             == sum_Q (sentiment_score <$> trends w))%Q
      end.
Proof.
  exists (statistics_of (trends w)). split; [done|].
  destruct (trends w) as [|r table] eqn:Htable; [done|].
  cbn [statistics_of avg_sentiment date_range]. split.
  - pose proof (sql_min_spec (timestamp <$> r :: table)) as Hmin.
    pose proof (sql_max_spec (timestamp <$> r :: table)) as Hmax.
    destruct (sql_min (timestamp <$> r :: table)) as [lo|]; [|done].
    destruct (sql_max (timestamp <$> r :: table)) as [hi|]; [|done].
    destruct Hmin as [Hlo Hmin], Hmax as [Hhi Hmax].
    exists lo, hi. split_and!; [done..|].
    apply Forall_fmap in Hmin, Hmax.
    apply Forall_forall. intros x Hx.
    rewrite Forall_forall in Hmin, Hmax.
    split; apply Search.datetime_leb_not_earlier;
      [by apply Hmin | by apply Hmax].
  - rewrite <- (length_fmap sentiment_score). by apply sql_avg_total.
Qed.

(** *** The table of [get_trending_keywords] *)



End Statistics.

(** ** Rows that [export_to_csv] writes so that they read back *)

Module CsvReadBack.
Import PyStr Py Store DatabaseUtils CsvReader CsvExport.

(** A character that may stand in a field written without quotes, and
    one that may stand between the quotes put around the keyword. *)
Definition bare_char (c : ascii) : bool :=
  negb (is_newline c) && negb (Ascii.eqb c QUOTECHAR)
  && negb (Ascii.eqb c DELIMITER).

Definition quotable_char (c : ascii) : bool :=
  negb (is_newline c) && negb (Ascii.eqb c QUOTECHAR).

Fixpoint all_chars (ok : ascii → bool) (s : string) : bool :=
  match s with
  | EmptyString => true
  | String c s' => ok c && all_chars ok s'
  end.

Section Rows.
Variable str_float : Q → string.
Variable str_timestamp : datetime → string.

(** A row all of whose texts are free of the characters the file format
    gives a meaning to: no double quote and no line break in the
    keyword, and also no comma in the other columns. *)
Definition exportable (row : trend) : bool :=
  all_chars quotable_char (keyword row)
  && all_chars bare_char (platform row)
  && all_chars bare_char (category row)
  && all_chars bare_char (str_float (sentiment_score row))
  && all_chars bare_char (str_float (engagement_score row))
  && all_chars bare_char (str_timestamp (timestamp row)).

End Rows.

(** *** Auxiliary facts *)

Lemma all_chars_app ok a b :
  all_chars ok (a +:+ b) = all_chars ok a && all_chars ok b.
Proof.
  induction a as [|c a IH]; [done|].
  rewrite StrFacts.append_cons. simpl. by rewrite IH, andb_assoc.
Qed.

Lemma all_chars_weaken (ok ok' : ascii → bool) s :
  (∀ c, ok c = true → ok' c = true) →
  all_chars ok s = true → all_chars ok' s = true.
Proof.
  intros Himp. induction s as [|c s IH]; [done|]. simpl.
  intros [Hc Hs]%andb_true_iff. by rewrite (Himp c Hc), IH.
Qed.

Lemma no_line_feed_all_chars s :
  all_chars quotable_char s = true → no_line_feed s = true.
Proof.
  induction s as [|c s IH]; [done|]. simpl.
  intros [Hc Hs]%andb_true_iff. rewrite (IH Hs), andb_true_r.
  unfold quotable_char, is_newline in Hc.
  by destruct (Ascii.eqb c LF).
Qed.

Lemma bare_quotable c : bare_char c = true → quotable_char c = true.
Proof. unfold bare_char. by intros [? _]%andb_true_iff. Qed.

Lemma no_line_feed_app a b :
  no_line_feed (a +:+ b) = no_line_feed a && no_line_feed b.
Proof.
  induction a as [|c a IH]; [done|].
  rewrite StrFacts.append_cons. simpl. by rewrite IH, andb_assoc.
Qed.

Lemma quotable_replace_commas s :
  all_chars quotable_char (replace_commas s) = all_chars quotable_char s.
Proof.
  induction s as [|c s IH]; [done|]. simpl. rewrite IH. f_equal.
  destruct (Ascii.eqb_spec c ","); [by subst|done].
Qed.

Lemma no_line_feed_bare s :
  all_chars bare_char s = true → no_line_feed s = true.
Proof.
  intros Hs. apply no_line_feed_all_chars.
  eapply all_chars_weaken; [apply bare_quotable | exact Hs].
Qed.

(** The decimal text of an integer holds digits and a sign only. *)
Lemma bare_uint d : all_chars bare_char (NilEmpty.string_of_uint d) = true.
Proof. induction d; simpl; by rewrite ?IHd. Qed.

Lemma bare_str_int n : all_chars bare_char (str_int n) = true.
Proof.
  unfold str_int, NilZero.string_of_int, NilZero.string_of_uint.
  destruct (Z.to_int n) as [d|d].
  - destruct d; try done; apply (bare_uint (_ d)).
  - change (all_chars bare_char (String "-" (match d with
                                              | Decimal.Nil => "0"
                                              | _ => NilEmpty.string_of_uint d
                                              end)) = true).
    simpl. destruct d; try done; apply (bare_uint (_ d)).
Qed.

(** Between the quotes every character is added to the field. *)
Lemma in_quoted_run s : ∀ f F rest,
  all_chars quotable_char s = true →
  process_line {| state := IN_QUOTED_FIELD; field := f; fields := F |}
    (s +:+ rest)
  = process_line {| state := IN_QUOTED_FIELD; field := f +:+ s; fields := F |}
      rest.
Proof.
  induction s as [|c s IH]; intros f F rest Hs.
  - by rewrite StrFacts.append_nil_l, StrFacts.append_nil_r.
  - simpl in Hs. apply andb_true_iff in Hs as [Hc Hs].
    unfold quotable_char in Hc. apply andb_true_iff in Hc as [_ Hq].
    apply negb_true_iff in Hq.
    rewrite StrFacts.append_cons. cbn [process_line].
    unfold parse_process_char. cbn [state]. rewrite Hq.
    change (Ok ?p ≫= ?k) with (k p). cbv beta.
    unfold parse_add_char. cbn [field fields]. rewrite (IH _ _ _ Hs).
    by rewrite StrFacts.append_assoc.
Qed.

(** A field written without quotes, up to the comma after it. *)
Lemma bare_field_run s : ∀ st f F rest,
  st = START_FIELD ∨ st = IN_FIELD →
  all_chars bare_char s = true →
  process_line {| state := st; field := f; fields := F |}
    (s +:+ "," +:+ rest)
  = process_line
      {| state := START_FIELD; field := EmptyString; fields := F ++ [f +:+ s] |}
      rest.
Proof.
  induction s as [|c s IH]; intros st f F rest Hst Hs.
  - rewrite StrFacts.append_nil_l, StrFacts.append_nil_r.
    by destruct Hst as [-> | ->].
  - simpl in Hs. apply andb_true_iff in Hs as [Hc Hs].
    unfold bare_char in Hc. apply andb_true_iff in Hc as [Hc Hd].
    apply andb_true_iff in Hc as [Hn Hq].
    apply negb_true_iff in Hn, Hq, Hd.
    rewrite StrFacts.append_cons. cbn [process_line].
    assert (Hstep : parse_process_char
                      {| state := st; field := f; fields := F |} (Char c)
                    = Ok {| state := IN_FIELD;
                            field := f +:+ String c EmptyString;
                            fields := F |}).
    { unfold parse_process_char, start_field. cbn [state].
      destruct Hst as [-> | ->]; by rewrite Hn, ?Hq, Hd. }
    rewrite Hstep. change (Ok ?p ≫= ?k) with (k p). cbv beta.
    rewrite (IH IN_FIELD); [|by right|done].
    by rewrite StrFacts.append_assoc.
Qed.

(** The last field of a line, up to the line feed. *)
Lemma last_field_run s : ∀ st f F,
  st = START_FIELD ∨ st = IN_FIELD →
  all_chars bare_char s = true →
  process_line {| state := st; field := f; fields := F |} (s +:+ NL)
  = Ok {| state := EAT_CRNL; field := EmptyString; fields := F ++ [f +:+ s] |}.
Proof.
  induction s as [|c s IH]; intros st f F Hst Hs.
  - rewrite StrFacts.append_nil_l, StrFacts.append_nil_r.
    by destruct Hst as [-> | ->].
  - simpl in Hs. apply andb_true_iff in Hs as [Hc Hs].
    unfold bare_char in Hc. apply andb_true_iff in Hc as [Hc Hd].
    apply andb_true_iff in Hc as [Hn Hq].
    apply negb_true_iff in Hn, Hq, Hd.
    rewrite StrFacts.append_cons. cbn [process_line].
    assert (Hstep : parse_process_char
                      {| state := st; field := f; fields := F |} (Char c)
                    = Ok {| state := IN_FIELD;
                            field := f +:+ String c EmptyString;
                            fields := F |}).
    { unfold parse_process_char, start_field. cbn [state].
      destruct Hst as [-> | ->]; by rewrite Hn, ?Hq, Hd. }
    rewrite Hstep. change (Ok ?p ≫= ?k) with (k p). cbv beta.
    rewrite (IH IN_FIELD); [|by right|done].
    by rewrite StrFacts.append_assoc.
Qed.

Lemma open_quote_run rest :
  process_line fresh (QUOTE +:+ rest)
  = process_line
      {| state := IN_QUOTED_FIELD; field := EmptyString; fields := [] |} rest.
Proof. reflexivity. Qed.

Lemma close_quote_run f F rest :
  process_line {| state := IN_QUOTED_FIELD; field := f; fields := F |}
    (QUOTE +:+ "," +:+ rest)
  = process_line
      {| state := START_FIELD; field := EmptyString; fields := F ++ [f] |} rest.
Proof. reflexivity. Qed.

Section Rows.
Variable str_float : Q → string.
Variable str_timestamp : datetime → string.

(** The line written for an exportable row is read as its field values. *)
Lemma csv_line_run row :
  exportable str_float str_timestamp row = true →
  process_line fresh (csv_line str_float str_timestamp row)
  = Ok {| state := EAT_CRNL; field := EmptyString;
          fields := row_fields str_float str_timestamp row |}.
Proof.
  unfold exportable. rewrite !andb_true_iff.
  intros [[[[[Hk Hp] Hc] Hs] He] Ht].
  unfold csv_line.
  rewrite open_quote_run.
  rewrite in_quoted_run by (by rewrite quotable_replace_commas).
  rewrite close_quote_run, StrFacts.append_nil_l.
  rewrite (bare_field_run (platform row)) by (by auto).
  rewrite (bare_field_run (category row)) by (by auto).
  rewrite (bare_field_run (str_int (volume row)))
    by (by auto using bare_str_int).
  rewrite (bare_field_run (str_float (sentiment_score row))) by (by auto).
  rewrite (bare_field_run (str_float (engagement_score row))) by (by auto).
  rewrite (last_field_run (str_timestamp (timestamp row))) by (by auto).
  reflexivity.
Qed.

Lemma csv_line_shape row :
  exportable str_float str_timestamp row = true →
  ∃ pre, csv_line str_float str_timestamp row = pre +:+ NL
         ∧ no_line_feed pre = true.
Proof.
  unfold exportable. rewrite !andb_true_iff.
  intros [[[[[Hk Hp] Hc] Hs] He] Ht].
  exists (QUOTE +:+ replace_commas (keyword row) +:+ QUOTE +:+ ","
          +:+ platform row +:+ "," +:+ category row +:+ ","
          +:+ str_int (volume row) +:+ ","
          +:+ str_float (sentiment_score row) +:+ ","
          +:+ str_float (engagement_score row) +:+ ","
          +:+ str_timestamp (timestamp row)).
  split.
  - unfold csv_line. by rewrite !StrFacts.append_assoc.
  - pose proof (bare_str_int (volume row)) as Hv.
    rewrite !no_line_feed_app.
    rewrite (no_line_feed_all_chars (replace_commas (keyword row)))
      by (by rewrite quotable_replace_commas).
    rewrite (no_line_feed_bare (platform row)),
      (no_line_feed_bare (category row)),
      (no_line_feed_bare (str_int (volume row))),
      (no_line_feed_bare (str_float (sentiment_score row))),
      (no_line_feed_bare (str_float (engagement_score row))),
      (no_line_feed_bare (str_timestamp (timestamp row))) by done.
    reflexivity.
Qed.

End Rows.

Lemma lines_of_concat (ls : list string) :
  Forall (λ l, ∃ pre, l = pre +:+ NL ∧ no_line_feed pre = true) ls →
  lines_of (String.concat "" ls) = ls.
Proof.
  induction 1 as [|l ls (pre & -> & Hpre) _ IH]; [done|].
  destruct ls as [|l' ls].
  - cbn [String.concat]. change NL with (String LF EmptyString).
    by rewrite lines_of_line.
  - change (String.concat "" ((pre +:+ NL) :: l' :: ls))
      with ((pre +:+ NL) +:+ String.concat "" (l' :: ls)).
    rewrite StrFacts.append_assoc.
    change (NL +:+ ?r) with (String LF r).
    rewrite lines_of_line by done. by rewrite IH.
Qed.

Lemma records_complete (ls : list string) (recs : list (list string)) :
  Forall2
    (λ l rec,
       process_line fresh l
       = Ok {| state := EAT_CRNL; field := EmptyString; fields := rec |})
    ls recs →
  records fresh ls = Ok recs.
Proof.
  induction 1 as [|l rec ls recs Hl _ IH]; [done|].
  cbn [records]. rewrite Hl.
  change (Ok ?p ≫= ?k) with (k p). cbv beta.
  change (parse_process_char
            {| state := EAT_CRNL; field := EmptyString; fields := rec |} EOL)
    with (Ok {| state := START_RECORD; field := EmptyString; fields := rec |}).
  change (Ok ?p ≫= ?k) with (k p). cbv beta.
  cbn [at_record_start state]. by rewrite IH.
Qed.

Lemma csv_text_concat str_float str_timestamp rows :
  csv_text str_float str_timestamp rows
  = String.concat "" (CSV_HEADER :: (csv_line str_float str_timestamp <$> rows)).
Proof.
  unfold csv_text. destruct rows; [apply StrFacts.append_nil_r | reflexivity].
Qed.

Lemma reader_csv_text str_float str_timestamp rows :
  forallb (exportable str_float str_timestamp) rows = true →
  reader (csv_text str_float str_timestamp rows)
  = Ok (expected_records str_float str_timestamp rows).
Proof.
  intros Hrows. rewrite List.forallb_forall in Hrows.
  unfold reader. rewrite csv_text_concat, lines_of_concat.
  - apply records_complete. constructor; [reflexivity|].
    apply Forall2_fmap, Forall_Forall2_diag, Forall_forall.
    intros row Hrow. apply csv_line_run. by apply Hrows, list_elem_of_In.
  - constructor.
    + exists "Keyword,Platform,Category,Volume,Sentiment Score,Engagement Score,Timestamp".
      by split.
    + apply Forall_fmap, Forall_forall. intros row Hrow.
      apply csv_line_shape. by apply Hrows, list_elem_of_In.
Qed.

(** *** The round trip *)

(** When every stored row is free of the characters the file format
    gives a meaning to (no double quote and no line break in a keyword;
    also no comma in the other texts), the file written by
    [export_to_csv] reads back, with a standard reader, as the header
    and the field values of the exported rows, newest first, a comma of
    a keyword having become a semicolon. *)
Theorem export_to_csv_reads_back str_float str_timestamp output_file days w th :
  date_threshold (clock w) days = Ok th →
  forallb (exportable str_float str_timestamp) (trends w) = true →
  ∃ text,
    files (export_to_csv str_float str_timestamp output_file days w).2
      !! output_file = Some text
    ∧ reader text
      = Ok (expected_records str_float str_timestamp
              (export_rows th (trends w))).
Proof.
  intros Hth Hrows.
  exists (csv_text str_float str_timestamp (export_rows th (trends w))).
  split.
  - rewrite (StoreLaws.export_to_csv_run _ _ _ _ _ th Hth). simpl.
    apply lookup_insert_eq.
  - apply reader_csv_text.
    rewrite List.forallb_forall in Hrows. apply List.forallb_forall.
    intros row Hrow. apply Hrows.
    apply list_elem_of_In in Hrow. unfold export_rows in Hrow.
    rewrite (DescSort.sort_perm timestamp datetime_leb) in Hrow.
    by apply list_elem_of_In, List.filter_In in Hrow as [Hrow _].
Qed.

Lemma export_to_csv_reads_back_witness :
  ∃ text,
    files (export_to_csv (λ _, "0.5") (λ _, "2024-04-26 10:00:00")
             "trends_export.csv" 30 (sample_world [])).2
      !! "trends_export.csv" = Some text
    ∧ reader text
      = Ok (expected_records (λ _, "0.5") (λ _, "2024-04-26 10:00:00")
              (export_rows 738970 (trends (sample_world [])))).
Proof.
  apply (export_to_csv_reads_back (λ _, "0.5") (λ _, "2024-04-26 10:00:00")
           "trends_export.csv" 30 (sample_world []) 738970%Z);
    reflexivity.
Defined.

End CsvReadBack.

(** ** The ranking and the top-trends table of the reports *)

Module Reports.
Import PyStr Py TrendExtractor.

(** [x.get('volume', 0) + x.get('engagement_score', 0)], the key under
    which the charts and both reports rank the trends.  A field that is
    not a number makes the sum raise ([TypeError], which [add] does not
    tell from [ValueError]). *)
Definition ranking_score (t : gmap string value) : result value :=
  add (get t "volume" (VInt 0)) (get t "engagement_score" (VInt 0)).

(** Numbers, integers and floats alike, compare by value. *)
Definition num (v : value) : Q :=
  match v with
  | VInt n => inject_Z n
  | VFloat q => q
  | _ => 0%Q
  end.

(** [sorted] computes the key of every element before it compares any. *)
Fixpoint keyed (trends : list (gmap string value))
    : result (list (gmap string value * value)) :=
  match trends with
  | [] => Ok []
  | t :: rest =>
      k ← ranking_score t;
      rest' ← keyed rest;
      Ok ((t, k) :: rest')
  end.

(** [sorted(trends, key=..., reverse=True)[:top_n]], each trend with its
    score. *)
Definition sorted_trends (top_n : Z) (trends : list (gmap string value))
    : result (list (gmap string value * value)) :=
  ks ← keyed trends;
  Ok (TrendSummary.slice_to top_n (DescSort.sort (λ tk, num tk.2) Qle_bool ks)).

(** [int(score)] for the sum: a float is cut towards zero. *)
Definition int_of_score (v : value) : result Z :=
  match v with
  | VInt n => Ok n
  | VFloat q => Ok (Z.quot (Qnum q) (Zpos (Qden q)))
  | _ => Raise ValueError
  end.

(** [v[:n]]: only a text can be cut here. *)
Definition slice_text (n : nat) (v : value) : result string :=
  match v with
  | VStr s => Ok (String.substring 0 n s)
  | _ => Raise ValueError
  end.

(** One data row of the table of [generate_pdf_report]. *)
Record table_row : Type := {
  rank_cell : string;
  keyword_cell : string;
  category_cell : string;
  platform_cell : value;
  score_cell : string
}.

(** [for idx, trend in enumerate(sorted_trends, idx)] *)
Fixpoint table_rows (idx : Z) (rows : list (gmap string value * value))
    : result (list table_row) :=
  match rows with
  | [] => Ok []
  | (trend, score) :: rest =>
      k ← getitem trend "keyword";
      k ← slice_text 40 k;
      c ← slice_text 20 (get trend "category" (VStr "N/A"));
      p ← getitem trend "platform";
      n ← int_of_score score;
      rest' ← table_rows (idx + 1) rest;
      Ok ({| rank_cell := DatabaseUtils.str_int idx; keyword_cell := k;
             category_cell := c; platform_cell := p;
             score_cell := DatabaseUtils.str_int n |} :: rest')
  end.

(** The data rows under the heading "Top 20 Marketing Trends". *)
Definition top_trends_table (trends : list (gmap string value))
    : result (list table_row) :=
  rows ← sorted_trends 20 trends;
  table_rows 1 rows.

(** A record the table can show: keyword and category are texts (the
    category may be missing), a platform is given, and the volume and
    the engagement score, where given, are numbers. *)
Definition is_number (v : value) : bool :=
  match v with
  | VInt _ | VFloat _ => true
  | _ => false
  end.

Definition is_text (v : value) : bool :=
  match v with
  | VStr _ => true
  | _ => false
  end.

Definition presentable (t : gmap string value) : bool :=
  match t !! "keyword" with Some v => is_text v | None => false end
  && contains t "platform"
  && is_text (get t "category" (VStr "N/A"))
  && is_number (get t "volume" (VInt 0))
  && is_number (get t "engagement_score" (VInt 0)).

(** *** Auxiliary facts *)

Lemma add_numbers a b :
  is_number a = true → is_number b = true →
  ∃ v, add a b = Ok v ∧ is_number v = true.
Proof. destruct a, b; try done; intros _ _; by eexists. Qed.

Lemma add_is_number a b v : add a b = Ok v → is_number v = true.
Proof. destruct a, b; try done; by intros [= <-]. Qed.

Lemma keyed_spec trends ks :
  keyed trends = Ok ks →
  fst <$> ks = trends ∧ Forall (λ tk, ranking_score tk.1 = Ok tk.2) ks.
Proof.
  revert ks. induction trends as [|t trends IH]; intros ks; simpl.
  - by intros [= <-].
  - destruct (ranking_score t) as [k|e] eqn:Hk; [|done]. simpl.
    destruct (keyed trends) as [ks'|e]; [|done]. simpl. intros [= <-].
    destruct (IH ks' eq_refl) as [<- Hall]. split; [done|].
    by constructor.
Qed.

Lemma keyed_presentable trends :
  Forall (λ t, presentable t = true) trends → ∃ ks, keyed trends = Ok ks.
Proof.
  induction 1 as [|t trends Ht _ [ks IH]]; [by eexists|]. simpl.
  unfold presentable in Ht. rewrite !andb_true_iff in Ht.
  destruct Ht as [[_ Hv] He].
  destruct (add_numbers _ _ Hv He) as (v & Hadd & _).
  unfold ranking_score. rewrite Hadd, IH. by eexists.
Qed.

Lemma slice_to_take {A} (n : Z) (l : list A) :
  ∃ m, TrendSummary.slice_to n l = take m l.
Proof. unfold TrendSummary.slice_to. destruct (0 <=? n)%Z; by eexists. Qed.

Lemma StronglySorted_app_elems {A} (R : A → A → Prop) (l1 l2 : list A) a b :
  StronglySorted R (l1 ++ l2) → a ∈ l1 → b ∈ l2 → R a b.
Proof.
  induction l1 as [|x l1 IH]; simpl; intros Hs Ha Hb.
  - by apply elem_of_nil in Ha.
  - apply StronglySorted_inv in Hs as [Hs Hx].
    apply elem_of_cons in Ha as [->|Ha]; [|by apply IH].
    rewrite Forall_forall in Hx. apply Hx, elem_of_app. by right.
Qed.

Lemma desc_transitive {A} (key : A → Q) :
  Transitive (DescSort.desc key Qle_bool).
Proof.
  intros a b c Hab Hbc. unfold DescSort.desc in *.
  apply Qle_bool_iff in Hab, Hbc. apply Qle_bool_iff.
  by apply Qle_trans with (key b).
Qed.

Lemma table_rows_ok rows : ∀ idx,
  Forall (λ tk, presentable tk.1 = true ∧ is_number tk.2 = true) rows →
  ∃ table,
    table_rows idx rows = Ok table
    ∧ length table = length rows
    ∧ rank_cell <$> table
      = (λ i, DatabaseUtils.str_int (idx + Z.of_nat i)) <$> seq 0 (length rows)
    ∧ Forall (λ r, (String.length (keyword_cell r) ≤ 40)%nat
                   ∧ (String.length (category_cell r) ≤ 20)%nat) table.
Proof.
  induction rows as [|[t score] rows IH]; intros idx Hrows.
  - exists []. by repeat split.
  - apply Forall_cons in Hrows as [[Ht Hscore] Hrows]. simpl in Ht, Hscore.
    destruct (IH (idx + 1)%Z Hrows) as (table & Htable & Hlen & Hrank & Hcells).
    unfold presentable in Ht. rewrite !andb_true_iff in Ht.
    destruct Ht as [[[[Hk Hp] Hc] _] _].
    destruct (t !! "keyword") as [k|] eqn:Hkey; [|done].
    destruct k as [k| | |]; try done.
    apply contains_spec in Hp as [p Hp].
    destruct (get t "category" (VStr "N/A")) as [c| | |] eqn:Hcat; try done.
    assert (Hint : ∃ n, int_of_score score = Ok n)
      by (destruct score; try done; by eexists).
    destruct Hint as [n Hn].
    eexists. split_and!.
    + cbn [table_rows]. unfold getitem. rewrite Hkey, Hp, Hcat. simpl.
      rewrite Hn. simpl. rewrite Htable. reflexivity.
    + simpl. by rewrite Hlen.
    + cbn [length seq fmap list_fmap rank_cell]. f_equal.
      * f_equal. lia.
      * change (list_fmap _ _ rank_cell table) with (rank_cell <$> table).
        rewrite Hrank, <- fmap_S_seq, <- list_fmap_compose.
        apply list_fmap_ext. intros i x _. simpl. f_equal. lia.
    + constructor; [|done]. cbn [keyword_cell category_cell].
      rewrite !Display.length_substring_prefix. lia.
Qed.

Lemma sorted_trends_take top_n trends rows :
  sorted_trends top_n trends = Ok rows →
  ∃ ks m,
    keyed trends = Ok ks
    ∧ rows = take m (DescSort.sort (λ tk, num tk.2) Qle_bool ks).
Proof.
  unfold sorted_trends.
  destruct (keyed trends) as [ks|e]; [|done]. simpl.
  destruct (slice_to_take top_n
              (DescSort.sort (λ tk : gmap string value * value, num tk.2)
                 Qle_bool ks)) as [m ->].
  intros [= <-]. by exists ks, m.
Qed.

Lemma sorted_trends_kept top_n trends rows :
  sorted_trends top_n trends = Ok rows →
  (fst <$> rows) ⊆+ trends
  ∧ Forall (λ tk, ranking_score tk.1 = Ok tk.2) rows.
Proof.
  intros (ks & m & Hks & ->)%sorted_trends_take.
  destruct (keyed_spec _ _ Hks) as [Hfst Hall].
  set (S := DescSort.sort (λ tk : gmap string value * value, num tk.2)
              Qle_bool ks).
  assert (Hperm : S ≡ₚ ks) by apply DescSort.sort_perm.
  split.
  - rewrite <- Hfst, <- Hperm. apply sublist_submseteq, fmap_sublist,
      sublist_take.
  - apply Forall_forall. intros tk Htk.
    rewrite Forall_forall in Hall. apply Hall. rewrite <- Hperm.
    eapply elem_of_sublist; [exact Htk | apply sublist_take].
Qed.

Lemma top_trends_table_built trends :
  Forall (λ t, presentable t = true) trends →
  ∃ table,
    top_trends_table trends = Ok table
    ∧ length table = Nat.min 20 (length trends)
    ∧ rank_cell <$> table
      = (λ i, DatabaseUtils.str_int (1 + Z.of_nat i)) <$> seq 0 (length table)
    ∧ Forall (λ r, (String.length (keyword_cell r) ≤ 40)%nat
                   ∧ (String.length (category_cell r) ≤ 20)%nat) table.
Proof.
  intros Hall.
  destruct (keyed_presentable _ Hall) as [ks Hks].
  pose proof (sorted_trends_kept 20 trends) as Hkept.
  unfold top_trends_table. unfold sorted_trends in *. rewrite Hks in *.
  simpl in *.
  set (rows := TrendSummary.slice_to 20
                 (DescSort.sort (λ tk : gmap string value * value, num tk.2)
                    Qle_bool ks)) in *.
  destruct (Hkept rows eq_refl) as (Hsub & Hscores).
  assert (Hrows : Forall (λ tk : gmap string value * value,
                            presentable tk.1 = true ∧ is_number tk.2 = true)
                    rows).
  { apply Forall_forall. intros tk Htk. split.
    - rewrite Forall_forall in Hall. apply Hall.
      eapply elem_of_submseteq; [|exact Hsub]. by apply list_elem_of_fmap_2.
    - rewrite Forall_forall in Hscores. apply Hscores in Htk.
      by apply add_is_number in Htk. }
  destruct (table_rows_ok rows 1 Hrows) as (table & Htable & Hlen & Hrank & Hcells).
  exists table. split_and!; [done| |by rewrite Hlen|done].
  rewrite Hlen. unfold rows, TrendSummary.slice_to. simpl.
  rewrite length_take.
  rewrite (Permutation_length (DescSort.sort_perm _ _ ks)).
  destruct (keyed_spec _ _ Hks) as [<- _]. by rewrite length_fmap.
Qed.

(** *** The ranking *)

(** When the ranking returns, the trends it keeps are trends of the
    input, each with its score, in order of falling score; and every
    trend it leaves out scores no more than each one it keeps. *)
Theorem sorted_trends_ranked top_n trends rows :
  sorted_trends top_n trends = Ok rows →
  (fst <$> rows) ⊆+ trends
  ∧ Forall (λ tk, ranking_score tk.1 = Ok tk.2) rows
  ∧ Sorted (λ a b, (num b.2 <= num a.2)%Q) rows
  ∧ ∀ t k, t ∈ trends → ranking_score t = Ok k → t ∉ fst <$> rows →
           Forall (λ r, (num k <= num r.2)%Q) rows.
Proof.
  intros Hrows. destruct (sorted_trends_kept _ _ _ Hrows) as [Hsub Hscores].
  apply sorted_trends_take in Hrows as (ks & m & Hks & ->).
  destruct (keyed_spec _ _ Hks) as [Hfst Hall].
  set (S := DescSort.sort (λ tk : gmap string value * value, num tk.2)
              Qle_bool ks) in *.
  assert (Hperm : S ≡ₚ ks) by apply DescSort.sort_perm.
  assert (Hsorted : Sorted (DescSort.desc (λ tk : gmap string value * value,
                                             num tk.2) Qle_bool) S)
    by apply DescSort.sort_sorted, DescSort.Qle_bool_total.
  split_and!; [done|done| |].
  - apply Statistics.Sorted_take.
    eapply DescSort.Sorted_weaken; [|exact Hsorted].
    intros a b Hd. by apply Qle_bool_iff.
  - intros t k Ht Hk Hout.
    rewrite <- Hfst in Ht. apply list_elem_of_fmap in Ht as (tk & -> & Htk).
    assert (Hk' : tk.2 = k).
    { rewrite Forall_forall in Hall. specialize (Hall tk Htk).
      rewrite Hk in Hall. by injection Hall. }
    rewrite <- Hperm, <- (take_drop m S) in Htk.
    apply elem_of_app in Htk as [Htk|Htk].
    { exfalso. apply Hout. by apply list_elem_of_fmap_2. }
    apply Sorted_StronglySorted in Hsorted; [|apply desc_transitive].
    rewrite <- (take_drop m S) in Hsorted.
    apply Forall_forall. intros r Hr.
    pose proof (StronglySorted_app_elems _ _ _ _ _ Hsorted Hr Htk) as Hd.
    unfold DescSort.desc in Hd. apply Qle_bool_iff in Hd. by rewrite <- Hk'.
Qed.

Lemma sorted_trends_ranked_witness :
  let rows := [(google_record, VInt 40)] in
  (fst <$> rows) ⊆+ [google_record; ∅]
  ∧ Forall (λ tk, ranking_score tk.1 = Ok tk.2) rows
  ∧ Sorted (λ a b, (num b.2 <= num a.2)%Q) rows
  ∧ ∀ t k, t ∈ [google_record; ∅] → ranking_score t = Ok k →
           t ∉ fst <$> rows →
           Forall (λ r, (num k <= num r.2)%Q) rows.
Proof.
  apply (sorted_trends_ranked 1 [google_record; ∅] [(google_record, VInt 40)]).
  reflexivity.
Defined.



(** *** The table of the report *)

(** For trends that can be shown (text keyword and category, a
    platform, numeric volume and engagement score) the table is built
    without an error: it has one row per trend up to twenty, numbered
    from 1, with the keyword cut to 40 characters and the category to
    20. *)
Theorem top_trends_table_rows trends :
  forallb presentable trends = true →
  ∃ table,
    top_trends_table trends = Ok table
    ∧ length table = Nat.min 20 (length trends)
    ∧ rank_cell <$> table
      = (λ i, DatabaseUtils.str_int (1 + Z.of_nat i)) <$> seq 0 (length table)
    ∧ Forall (λ r, (String.length (keyword_cell r) ≤ 40)%nat
                   ∧ (String.length (category_cell r) ≤ 20)%nat) table.
Proof.
  intros Htrends. rewrite List.forallb_forall in Htrends.
  apply top_trends_table_built, Forall_forall.
  intros t Ht. by apply Htrends, list_elem_of_In.
Qed.

Lemma top_trends_table_rows_witness :
  ∃ table,
    top_trends_table [google_record] = Ok table
    ∧ length table = Nat.min 20 (length [google_record])
    ∧ rank_cell <$> table
      = (λ i, DatabaseUtils.str_int (1 + Z.of_nat i)) <$> seq 0 (length table)
    ∧ Forall (λ r, (String.length (keyword_cell r) ≤ 40)%nat
                   ∧ (String.length (category_cell r) ≤ 20)%nat) table.
Proof.
  apply (top_trends_table_rows [google_record]). reflexivity.
Defined.

End Reports.

(** ** One pass of [run_weekly_extraction], up to the report's table *)

Module Workflow.
Import PyStr Py TrendExtractor.

Section Pass.
Variable generate_content : string → result SentimentAnalyzer.response.
Variable fetch : list string → result Collectors.dataframe.
Variable reddit_monitor : option (string → nat → list Collectors.post).
Variable marketing_keywords : list string.


(** *** Auxiliary facts *)






(** *** The pass as a whole *)


End Pass.

End Workflow.
